(* Verification model of the EmpowerGRID escrow program
   (programs/empower_grid/src/lib.rs, upgrade.rs, state.rs).

   Accounts are modelled as a world record of typed stores:
   - program-owned accounts (Project, Vault, Milestone, State) live in
     gmaps keyed by their addresses; a PDA is keyed by its seed tuple;
   - system-owned accounts (funders, payees) only carry lamports.
   An instruction is a computation in a state/error monad over the world.
   The runtime commits the working world of an instruction only when it
   returns Ok; a failed instruction leaves every account as it was.

   Rust arithmetic is modelled as compiled with overflow-checks (the
   release profile of Anchor workspaces): an overflowing `+` on a u8 or a
   u64 aborts the instruction (a panic). *)

From stdpp Require Import base gmap list strings.
From Stdlib Require Import ZArith Lia.

Open Scope Z_scope.

(* ------------------------------------------------------------------ *)
(** * Machine integers *)

Definition Pubkey := Z.

Definition U8_MAX : Z := 255.
Definition U16_MAX : Z := 65535.
Definition U64_MAX : Z := 2 ^ 64 - 1.

Definition is_u8 (x : Z) : Prop := 0 <= x <= U8_MAX.

(** [u64::checked_add] / [u64::checked_sub] on in-range operands. *)
Definition checked_add_u64 (a b : Z) : option Z :=
  if a + b <=? U64_MAX then Some (a + b) else None.

Definition checked_sub_u64 (a b : Z) : option Z :=
  if b <=? a then Some (a - b) else None.

(** The `+` operator on u8 with overflow checks: [None] is a panic. *)
Definition add_u8 (a b : Z) : option Z :=
  if a + b <=? U8_MAX then Some (a + b) else None.

(** The `as u8` cast truncates to the low 8 bits. *)
Definition as_u8 (x : Z) : Z := x mod 256.

(* ------------------------------------------------------------------ *)
(** * Account data (lib.rs, "Data structs") *)

Record State := mkState {
  authority : Pubkey;
  project_count : Z
}.

Record Project := mkProject {
  id : Z;
  name : string;
  description : string;
  creator : Pubkey;
  governance_authority : Pubkey;
  oracle_authority : Pubkey;
  vault : Pubkey;
  vault_bump : Z;
  funded_amount : Z;
  kwh_total : Z;
  co2_total : Z;
  last_metrics_root : list Z;
  num_milestones : Z
}.

Record Milestone := mkMilestone {
  project : Pubkey;
  index : Z;
  amount_lamports : Z;
  kwh_target : Z;
  co2_target : Z;
  payee : Pubkey;
  released : bool
}.

Inductive Event :=
| ProjectFunded (project_key funder_key : Pubkey) (amount : Z)
| MetricsUpdated (project_key : Pubkey) (kwh co2 : Z)
| MilestoneReleased (project_key : Pubkey) (idx : Z) (amount : Z) (payee_key : Pubkey).

Inductive ErrorCode :=
| NumericalOverflow
| Unauthorized
| StringTooLong
| InvalidMilestone
| MetricThresholdNotMet
| InsufficientFunds
| AlreadyReleased
| InvalidAmount.

(** Failures of an instruction: the program's own error codes, the
    account checks Anchor performs before the handler runs, a failed
    system transfer and a Rust panic. *)
Inductive Error :=
| Custom (e : ErrorCode)
| AccountNotInitialized
| AccountAlreadyInUse
| AccountNotSigner
| ConstraintHasOne
| TransferFailed
| PrivilegeEscalation
| TryingToInitPayerAsProgramAccount
| Panic.

(** Milestone PDA: seeds [b"milestone", project, index]. *)
Definition MilestoneKey := (Pubkey * Z)%type.

Record World := mkWorld {
  registry : gmap Pubkey State;           (* global State accounts *)
  projects : gmap Pubkey Project;         (* Project accounts *)
  vaults : gmap Pubkey Z;                 (* vault PDA [b"vault", project] -> lamports *)
  milestones : gmap MilestoneKey Milestone;
  lamports : gmap Pubkey Z;               (* system accounts; absent = 0 *)
  events : list Event
}.

(* ------------------------------------------------------------------ *)
(** * The instruction monad *)

Inductive Result (A : Type) :=
| Ok (a : A)
| Err (e : Error).
Arguments Ok {A} a.
Arguments Err {A} e.

Definition M (A : Type) := World -> Result (A * World).

Definition ret {A} (a : A) : M A := fun w => Ok (a, w).

Definition bind {A B} (m : M A) (k : A -> M B) : M B :=
  fun w => match m w with
           | Ok (a, w1) => k a w1
           | Err e => Err e
           end.

Notation "x <-- m ;; k" := (bind m (fun x => k))
  (at level 100, m at next level, right associativity).
Notation "m ;;; k" := (bind m (fun _ => k))
  (at level 100, right associativity).

Definition throw {A} (e : Error) : M A := fun _ => Err e.

(** [require!(cond, code)] *)
Definition require (b : bool) (e : ErrorCode) : M unit :=
  if b then ret tt else throw (Custom e).

(** [x.checked_op(y).ok_or(code)?] *)
Definition ok_or (o : option Z) (e : Error) : M Z :=
  match o with Some x => ret x | None => throw e end.

Definition get : M World := fun w => Ok (w, w).
Definition modify (f : World -> World) : M unit := fun w => Ok (tt, f w).

Definition set_projects (f : gmap Pubkey Project -> gmap Pubkey Project) (w : World) : World :=
  mkWorld (registry w) (f (projects w)) (vaults w) (milestones w) (lamports w) (events w).
Definition set_registry (f : gmap Pubkey State -> gmap Pubkey State) (w : World) : World :=
  mkWorld (f (registry w)) (projects w) (vaults w) (milestones w) (lamports w) (events w).
Definition set_vaults (f : gmap Pubkey Z -> gmap Pubkey Z) (w : World) : World :=
  mkWorld (registry w) (projects w) (f (vaults w)) (milestones w) (lamports w) (events w).
Definition set_milestones (f : gmap MilestoneKey Milestone -> gmap MilestoneKey Milestone) (w : World) : World :=
  mkWorld (registry w) (projects w) (vaults w) (f (milestones w)) (lamports w) (events w).
Definition set_lamports (f : gmap Pubkey Z -> gmap Pubkey Z) (w : World) : World :=
  mkWorld (registry w) (projects w) (vaults w) (milestones w) (f (lamports w)) (events w).

(** Account loads ([Account<'info, T>] deserialisation). *)
Definition load_project (k : Pubkey) : M Project :=
  fun w => match projects w !! k with
           | Some p => Ok (p, w)
           | None => Err AccountNotInitialized
           end.
Definition load_vault (k : Pubkey) : M Z :=
  fun w => match vaults w !! k with
           | Some b => Ok (b, w)
           | None => Err AccountNotInitialized
           end.
Definition load_milestone (k : MilestoneKey) : M Milestone :=
  fun w => match milestones w !! k with
           | Some m => Ok (m, w)
           | None => Err AccountNotInitialized
           end.
Definition load_state (k : Pubkey) : M State :=
  fun w => match registry w !! k with
           | Some s => Ok (s, w)
           | None => Err AccountNotInitialized
           end.
Definition system_lamports (k : Pubkey) : M Z :=
  fun w => Ok (default 0 (lamports w !! k), w).

(** [Signer<'info>] *)
Definition check_signer (is_signer : bool) : M unit :=
  if is_signer then ret tt else throw AccountNotSigner.

Definition put_project (k : Pubkey) (p : Project) : M unit := modify (set_projects (insert k p)).
Definition put_state (k : Pubkey) (s : State) : M unit := modify (set_registry (insert k s)).
Definition put_vault (k : Pubkey) (b : Z) : M unit := modify (set_vaults (insert k b)).
Definition put_milestone (k : MilestoneKey) (m : Milestone) : M unit :=
  modify (set_milestones (insert k m)).
Definition put_lamports (k : Pubkey) (b : Z) : M unit := modify (set_lamports (insert k b)).
Definition emit (e : Event) : M unit :=
  modify (fun w => mkWorld (registry w) (projects w) (vaults w) (milestones w) (lamports w)
                           (events w ++ [e])).

(** Rent (the default [Rent] sysvar): an account holding [space] bytes
    of data is rent-exempt from (128 + space) * 3480 * 2 lamports. *)
Definition rent_minimum_balance (space : Z) : Z := (128 + space) * 3480 * 2.

(** [space = 8 + T::SIZE] of each [init] (lib.rs). *)
Definition STATE_SPACE : Z := 8 + (32 + 8).
Definition PROJECT_SPACE : Z :=
  8 + (8 + (4 + 64) + (4 + 256) + 32 + 32 + 32 + 32 + 1 + 8 + 8 + 8 + 32 + 1).
Definition VAULT_SPACE : Z := 8 + 1.
Definition MILESTONE_SPACE : Z := 8 + (32 + 1 + 8 + 8 + 8 + 32 + 1).

(** [#[account(init, payer = payer, space = space)]], as Anchor generates
    it: the account is stored under [k] at address [addr].  [held] gives
    the lamports of an account already stored there: a vault's value is
    its balance; the other accounts of this program keep at least the
    rent-exempt minimum they were created with, as nothing here debits
    them.  [addr_signs] tells whether [addr] can sign the system program
    calls: a PDA always can (Anchor signs with its seeds), a keypair
    account only when it signed the transaction, otherwise the runtime
    refuses the call.  A failed system transfer (payer short of
    lamports) is [TransferFailed].  Returns the lamports of the new
    account, which stops being a system account. *)
Definition init_account {K V} `{Countable K} (store : World -> gmap K V) (k : K) (held : V -> Z)
    (addr : Pubkey) (addr_signs : bool) (payer : Pubkey) (space : Z) : M Z :=
  w <-- get ;;
  let rent := rent_minimum_balance space in
  let cur := match store w !! k with
             | Some v => held v
             | None => default 0 (lamports w !! addr)
             end in
  if cur =? 0 then
    (* system_program::create_account(payer -> addr, rent, space) *)
    (if addr_signs then ret tt else throw PrivilegeEscalation) ;;;
    (match store w !! k with Some _ => throw AccountAlreadyInUse | None => ret tt end) ;;;
    pb <-- system_lamports payer ;;
    (if rent <=? pb then ret tt else throw TransferFailed) ;;;
    put_lamports payer (pb - rent) ;;;
    modify (set_lamports (delete addr)) ;;;
    ret rent
  else
    (if payer =? addr then throw TryingToInitPayerAsProgramAccount else ret tt) ;;;
    (* rent.max(1).saturating_sub(cur), transferred from the payer if > 0 *)
    let required := if cur <=? Z.max rent 1 then Z.max rent 1 - cur else 0 in
    (if required >? 0 then
       pb <-- system_lamports payer ;;
       (if required <=? pb then ret tt else throw TransferFailed) ;;;
       put_lamports payer (pb - required)
     else ret tt) ;;;
    (* system_program::allocate and assign *)
    (if addr_signs then ret tt else throw PrivilegeEscalation) ;;;
    (match store w !! k with Some _ => throw AccountAlreadyInUse | None => ret tt end) ;;;
    modify (set_lamports (delete addr)) ;;;
    ret (cur + required).

(** The runtime: a failed instruction rolls back all its account writes. *)
Definition execute (m : M unit) (w : World) : World * Result unit :=
  match m w with
  | Ok (_, w') => (w', Ok tt)
  | Err e => (w, Err e)
  end.

(* ------------------------------------------------------------------ *)
(** * Instructions (lib.rs, [mod empower_grid]) *)

(** Accounts and arguments of each instruction.  Addresses of accounts
    created by [init] are supplied by the client, as on chain; a PDA's
    address is taken to be the one its seeds derive. *)
Record InitializeCtx := {
  in_state : Pubkey;
  in_authority : Pubkey;
  in_authority_signer : bool;
  in_state_signer : bool           (* the new State account is a keypair, not a PDA *)
}.

Record CreateProjectCtx := {
  cp_state : Pubkey;
  cp_project : Pubkey;
  cp_vault_key : Pubkey;
  cp_vault_bump : Z;
  cp_creator : Pubkey;
  cp_creator_signer : bool;
  cp_authority : Pubkey;
  cp_name : string;
  cp_description : string;
  cp_governance_authority : Pubkey;
  cp_oracle_authority : Pubkey
}.

Record CreateMilestoneCtx := {
  cm_project : Pubkey;
  cm_creator : Pubkey;
  cm_creator_signer : bool;
  cm_governance_authority : Pubkey;   (* UncheckedAccount *)
  cm_index : Z;
  cm_amount_lamports : Z;
  cm_kwh_target : Z;
  cm_co2_target : Z;
  cm_payee : Pubkey;
  cm_milestone : Pubkey            (* address of the milestone PDA *)
}.

Record FundProjectCtx := {
  fp_project : Pubkey;
  fp_funder : Pubkey;
  fp_funder_signer : bool;
  fp_amount : Z
}.

Record SubmitMetricsCtx := {
  sm_project : Pubkey;
  sm_oracle_authority : Pubkey;
  sm_oracle_signer : bool;
  sm_kwh_delta : Z;
  sm_co2_delta : Z;
  sm_new_root : option (list Z)
}.

Record ReleaseMilestoneCtx := {
  rm_project : Pubkey;
  rm_milestone : MilestoneKey;        (* any Milestone account: no seeds check *)
  rm_payee : Pubkey;
  rm_governance_authority : Pubkey;
  rm_governance_signer : bool
}.

Record SetProjectAuthorityCtx := {
  sa_project : Pubkey;
  sa_current_governance_authority : Pubkey;
  sa_current_signer : bool;
  sa_new_governance_authority : Pubkey
}.

(** Anchor runs the account checks in three passes: it loads every
    account that is not [init] in field order ([Account] and [Signer]
    checks), then performs the [init]s in field order, then checks the
    constraints of the other accounts ([has_one], ...). *)
Definition initialize (c : InitializeCtx) : M unit :=
  (* account checks *)
  check_signer (in_authority_signer c) ;;;
  _ <-- init_account registry (in_state c) (fun _ => rent_minimum_balance STATE_SPACE)
          (in_state c) (in_state_signer c) (in_authority c) STATE_SPACE ;;
  (* handler *)
  put_state (in_state c) (mkState (in_authority c) 0).

Definition create_project (c : CreateProjectCtx) : M unit :=
  (* account checks *)
  st <-- load_state (cp_state c) ;;
  check_signer (cp_creator_signer c) ;;;
  _ <-- ok_or (checked_add_u64 (project_count st) 1) Panic ;;   (* seeds: .unwrap() *)
  _ <-- init_account projects (cp_project c) (fun _ => rent_minimum_balance PROJECT_SPACE)
          (cp_project c) true (cp_creator c) PROJECT_SPACE ;;
  vault_lamports <-- init_account vaults (cp_project c) (fun b => b)
          (cp_vault_key c) true (cp_creator c) VAULT_SPACE ;;
  (if authority st =? cp_authority c then ret tt else throw ConstraintHasOne) ;;;
  (* handler *)
  require ((String.length (cp_name c) <=? 64)%nat && (String.length (cp_description c) <=? 256)%nat)
          StringTooLong ;;;
  cnt <-- ok_or (checked_add_u64 (project_count st) 1) (Custom NumericalOverflow) ;;
  put_state (cp_state c) (mkState (authority st) cnt) ;;;
  put_vault (cp_project c) vault_lamports ;;;
  put_project (cp_project c)
    (mkProject cnt (cp_name c) (cp_description c) (cp_creator c)
               (cp_governance_authority c) (cp_oracle_authority c)
               (cp_vault_key c) (cp_vault_bump c) 0 0 0 (repeat 0 32) 0).

Definition create_milestone (c : CreateMilestoneCtx) : M unit :=
  (* account checks *)
  p <-- load_project (cm_project c) ;;
  check_signer (cm_creator_signer c) ;;;
  _ <-- init_account milestones (cm_project c, cm_index c)
          (fun _ => rent_minimum_balance MILESTONE_SPACE)
          (cm_milestone c) true (cm_creator c) MILESTONE_SPACE ;;
  (* handler *)
  require ((cm_creator c =? creator p)
           || (cm_governance_authority c =? governance_authority p)) Unauthorized ;;;
  put_milestone (cm_project c, cm_index c)
    (mkMilestone (cm_project c) (cm_index c) (cm_amount_lamports c)
                 (cm_kwh_target c) (cm_co2_target c) (cm_payee c) false) ;;;
  n <-- ok_or (add_u8 (cm_index c) 1) Panic ;;
  if n >? num_milestones p then
    put_project (cm_project c)
      (mkProject (id p) (name p) (description p) (creator p) (governance_authority p)
                 (oracle_authority p) (vault p) (vault_bump p) (funded_amount p)
                 (kwh_total p) (co2_total p) (last_metrics_root p) n)
  else ret tt.

(** [system_instruction::transfer] from a system account to the vault. *)
Definition transfer_to_vault (from : Pubkey) (vault_of : Pubkey) (amount : Z) : M unit :=
  bal <-- system_lamports from ;;
  vb <-- load_vault vault_of ;;
  (if amount <=? bal then ret tt else throw TransferFailed) ;;;
  vb' <-- ok_or (checked_add_u64 vb amount) TransferFailed ;;
  put_lamports from (bal - amount) ;;;
  put_vault vault_of vb'.

Definition fund_project (c : FundProjectCtx) : M unit :=
  (* account checks *)
  _ <-- load_project (fp_project c) ;;
  _ <-- load_vault (fp_project c) ;;
  check_signer (fp_funder_signer c) ;;;
  (* handler *)
  require (fp_amount c >? 0) InvalidAmount ;;;
  transfer_to_vault (fp_funder c) (fp_project c) (fp_amount c) ;;;
  p <-- load_project (fp_project c) ;;
  f <-- ok_or (checked_add_u64 (funded_amount p) (fp_amount c)) (Custom NumericalOverflow) ;;
  put_project (fp_project c)
    (mkProject (id p) (name p) (description p) (creator p) (governance_authority p)
               (oracle_authority p) (vault p) (vault_bump p) f
               (kwh_total p) (co2_total p) (last_metrics_root p) (num_milestones p)) ;;;
  emit (ProjectFunded (fp_project c) (fp_funder c) (fp_amount c)).

Definition submit_metrics (c : SubmitMetricsCtx) : M unit :=
  (* account checks *)
  _ <-- load_project (sm_project c) ;;
  check_signer (sm_oracle_signer c) ;;;
  (* handler *)
  p <-- load_project (sm_project c) ;;
  require (oracle_authority p =? sm_oracle_authority c) Unauthorized ;;;
  k <-- ok_or (checked_add_u64 (kwh_total p) (sm_kwh_delta c)) (Custom NumericalOverflow) ;;
  put_project (sm_project c)
    (mkProject (id p) (name p) (description p) (creator p) (governance_authority p)
               (oracle_authority p) (vault p) (vault_bump p) (funded_amount p)
               k (co2_total p) (last_metrics_root p) (num_milestones p)) ;;;
  p1 <-- load_project (sm_project c) ;;
  o <-- ok_or (checked_add_u64 (co2_total p1) (sm_co2_delta c)) (Custom NumericalOverflow) ;;
  let p2 := mkProject (id p1) (name p1) (description p1) (creator p1) (governance_authority p1)
               (oracle_authority p1) (vault p1) (vault_bump p1) (funded_amount p1)
               (kwh_total p1) o (last_metrics_root p1) (num_milestones p1) in
  let p3 := match sm_new_root c with
            | Some root =>
                mkProject (id p2) (name p2) (description p2) (creator p2) (governance_authority p2)
                  (oracle_authority p2) (vault p2) (vault_bump p2) (funded_amount p2)
                  (kwh_total p2) (co2_total p2) root (num_milestones p2)
            | None => p2
            end in
  put_project (sm_project c) p3 ;;;
  emit (MetricsUpdated (sm_project c) (kwh_total p3) (co2_total p3)).

Definition release_milestone (c : ReleaseMilestoneCtx) : M unit :=
  (* account checks *)
  _ <-- load_project (rm_project c) ;;
  _ <-- load_vault (rm_project c) ;;
  _ <-- load_milestone (rm_milestone c) ;;
  check_signer (rm_governance_signer c) ;;;
  (* handler *)
  p <-- load_project (rm_project c) ;;
  require (rm_governance_signer c) Unauthorized ;;;
  require (governance_authority p =? rm_governance_authority c) Unauthorized ;;;
  ms <-- load_milestone (rm_milestone c) ;;
  require (negb (released ms)) AlreadyReleased ;;;
  require (project ms =? rm_project c) InvalidMilestone ;;;
  require (kwh_total p >=? kwh_target ms) MetricThresholdNotMet ;;;
  require (co2_total p >=? co2_target ms) MetricThresholdNotMet ;;;
  vault_balance <-- load_vault (rm_project c) ;;
  require (vault_balance >=? amount_lamports ms) InsufficientFunds ;;;
  vb' <-- ok_or (checked_sub_u64 vault_balance (amount_lamports ms)) (Custom NumericalOverflow) ;;
  put_vault (rm_project c) vb' ;;;
  pb <-- system_lamports (rm_payee c) ;;
  pb' <-- ok_or (checked_add_u64 pb (amount_lamports ms)) (Custom NumericalOverflow) ;;
  put_lamports (rm_payee c) pb' ;;;
  put_milestone (rm_milestone c)
    (mkMilestone (project ms) (index ms) (amount_lamports ms) (kwh_target ms)
                 (co2_target ms) (payee ms) true) ;;;
  emit (MilestoneReleased (rm_project c) (index ms) (amount_lamports ms) (payee ms)).

Definition set_project_authority (c : SetProjectAuthorityCtx) : M unit :=
  _ <-- load_project (sa_project c) ;;
  check_signer (sa_current_signer c) ;;;
  require (sa_current_signer c) Unauthorized ;;;
  p <-- load_project (sa_project c) ;;
  require (governance_authority p =? sa_current_governance_authority c) Unauthorized ;;;
  put_project (sa_project c)
    (mkProject (id p) (name p) (description p) (creator p) (sa_new_governance_authority c)
               (oracle_authority p) (vault p) (vault_bump p) (funded_amount p)
               (kwh_total p) (co2_total p) (last_metrics_root p) (num_milestones p)).

Inductive Instr :=
| IInitialize (c : InitializeCtx)
| ICreateProject (c : CreateProjectCtx)
| ICreateMilestone (c : CreateMilestoneCtx)
| IFundProject (c : FundProjectCtx)
| ISubmitMetrics (c : SubmitMetricsCtx)
| IReleaseMilestone (c : ReleaseMilestoneCtx)
| ISetProjectAuthority (c : SetProjectAuthorityCtx).

Definition instr_body (i : Instr) : M unit :=
  match i with
  | IInitialize c => initialize c
  | ICreateProject c => create_project c
  | ICreateMilestone c => create_milestone c
  | IFundProject c => fund_project c
  | ISubmitMetrics c => submit_metrics c
  | IReleaseMilestone c => release_milestone c
  | ISetProjectAuthority c => set_project_authority c
  end.

(** Instruction arguments as the client can send them: u64 and u8
    arguments within their ranges. *)
Definition u64b (x : Z) : bool := (0 <=? x) && (x <=? U64_MAX).
Definition u8b (x : Z) : bool := (0 <=? x) && (x <=? U8_MAX).

Definition instr_args_ok (i : Instr) : bool :=
  match i with
  | IInitialize _ | ISetProjectAuthority _ | ICreateProject _ => true
  | ICreateMilestone c =>
      u8b (cm_index c) && u64b (cm_amount_lamports c) && u64b (cm_kwh_target c)
      && u64b (cm_co2_target c)
  | IFundProject c => u64b (fp_amount c)
  | ISubmitMetrics c => u64b (sm_kwh_delta c) && u64b (sm_co2_delta c)
  | IReleaseMilestone _ => true
  end.

Definition is_release_instr (i : Instr) : bool :=
  match i with IReleaseMilestone _ => true | _ => false end.

Definition is_fund_instr (i : Instr) : bool :=
  match i with IFundProject _ => true | _ => false end.

(** A transaction: instructions run one after the other on the
    committed world. *)
Definition step (w : World) (i : Instr) : World := fst (execute (instr_body i) w).

Fixpoint run (w : World) (is : list Instr) : World :=
  match is with
  | [] => w
  | i :: rest => run (step w i) rest
  end.

(* ------------------------------------------------------------------ *)
(** * Upgrade management (upgrade.rs) *)

Module Upgrade.

Record ContractVersion := mkContractVersion {
  version : Z;
  upgrade_authority : Pubkey;
  previous_version : option Pubkey;
  last_upgrade : Z;
  upgrade_count : Z;
  upgrade_in_progress : bool;
  migration_complete : bool;
  bump : Z
}.

(** [#[derive(Default)]] *)
Definition default_version : ContractVersion :=
  mkContractVersion 0 0 None 0 0 false false 0.


Definition start_upgrade (v : ContractVersion) : ContractVersion :=
  mkContractVersion (version v) (upgrade_authority v) (previous_version v) (last_upgrade v)
    (upgrade_count v) true false (bump v).

(** [Clock::get().unwrap().unix_timestamp] is the argument [now];
    [upgrade_count += 1] panics on u64 overflow ([None]). *)
Definition complete_upgrade (now : Z) (v : ContractVersion) (new_version : Z)
  : option ContractVersion :=
  match checked_add_u64 (upgrade_count v) 1 with
  | Some cnt =>
      Some (mkContractVersion new_version (upgrade_authority v) (previous_version v) now
              cnt false true (bump v))
  | None => None
  end.

Definition cancel_upgrade (v : ContractVersion) : ContractVersion :=
  mkContractVersion (version v) (upgrade_authority v) (previous_version v) (last_upgrade v)
    (upgrade_count v) false (migration_complete v) (bump v).

(** Calls of the three mutating methods; [None] is a panic. *)
Inductive VersionCall :=
| CallStart
| CallComplete (now new_version : Z)
| CallCancel.

Definition call_version (v : ContractVersion) (op : VersionCall) : option ContractVersion :=
  match op with
  | CallStart => Some (start_upgrade v)
  | CallComplete now nv => complete_upgrade now v nv
  | CallCancel => Some (cancel_upgrade v)
  end.

(** Successive method calls from a given state; [None] once one panics. *)
Fixpoint run_version (v : ContractVersion) (ops : list VersionCall) : option ContractVersion :=
  match ops with
  | [] => Some v
  | op :: rest => match call_version v op with
                  | Some v' => run_version v' rest
                  | None => None
                  end
  end.

(** Number of [complete_upgrade] calls in a call sequence. *)
Fixpoint count_completes (ops : list VersionCall) : Z :=
  match ops with
  | [] => 0
  | CallComplete _ _ :: rest => 1 + count_completes rest
  | _ :: rest => count_completes rest
  end.

Record MigrationState := mkMigrationState {
  original_contract : Pubkey;
  new_contract : Pubkey;
  migration_started : Z;
  migration_completed : option Z;
  state_hash : list Z;
  validation_passed : bool;
  stakeholders_notified : bool;
  approval_count : Z;
  required_approvals : Z;
  mbump : Z
}.

Definition is_complete (m : MigrationState) : bool :=
  match migration_completed m with Some _ => validation_passed m | None => false end.

Definition has_all_approvals (m : MigrationState) : bool :=
  required_approvals m <=? approval_count m.


(** [self.approval_count += 1] on a u8: [None] is the overflow panic. *)
Definition add_approval (m : MigrationState) : option MigrationState :=
  match add_u8 (approval_count m) 1 with
  | Some n =>
      Some (mkMigrationState (original_contract m) (new_contract m) (migration_started m)
              (migration_completed m) (state_hash m) (validation_passed m)
              (stakeholders_notified m) n (required_approvals m) (mbump m))
  | None => None
  end.

(** [n] successive [add_approval] calls; a panic stops the sequence. *)
Fixpoint add_approvals (n : nat) (m : MigrationState) : option MigrationState :=
  match n with
  | O => Some m
  | S n' => match add_approval m with
            | Some m' => add_approvals n' m'
            | None => None
            end
  end.

End Upgrade.

(* ------------------------------------------------------------------ *)
(** * Escrow account helpers (state.rs) *)

Module Escrow.

Inductive EscrowStatus := Initialized | Active | Completed | Disputed | EmergencyStopped.

Record EscrowAccount := mkEscrowAccount {
  project_id : string;
  creator : Pubkey;
  total_amount : Z;
  released_amount : Z;
  milestone_count : Z;
  completed_milestones : Z;
  status : EscrowStatus;
  oracle_authority : Pubkey;
  created_at : Z;
  bump : Z
}.

(** u16 [*] and [/] with Rust's checks: [None] is a panic. *)
Definition mul_u16 (a b : Z) : option Z :=
  if a * b <=? U16_MAX then Some (a * b) else None.

Definition div_u16 (a b : Z) : option Z :=
  if b =? 0 then None else Some (a / b).

Definition completion_percentage (e : EscrowAccount) : option Z :=
  if milestone_count e =? 0 then Some 0
  else match mul_u16 (completed_milestones e) 100 with
       | Some prod =>
           match div_u16 prod (milestone_count e) with
           | Some q => Some (as_u8 q)
           | None => None
           end
       | None => None
       end.

Definition all_milestones_completed (e : EscrowAccount) : bool :=
  completed_milestones e =? milestone_count e.


End Escrow.

(** [MilestoneData] and its helpers (state.rs). *)
Module EscrowMilestone.

Inductive MilestoneStatus := Pending | InProgress | Completed | Failed | Disputed.

Record MilestoneData := mkMilestoneData {
  escrow_account : Pubkey;
  milestone_index : Z;
  target_amount : Z;
  energy_target : Z;
  due_date : Z;
  status : MilestoneStatus;
  verification_hash : list Z;
  completed_at : option Z;
  bump : Z
}.

Definition is_overdue (m : MilestoneData) (current_time : Z) : bool :=
  negb (match status m with Completed => true | _ => false end) && (current_time >? due_date m).

End EscrowMilestone.

(** [Participant] and its helpers (state.rs). *)
Module Participants.







End Participants.

(* ================================================================== *)
(** * Proofs *)

(** Unfold every monadic primitive so that an instruction reduces to
    nested matches on lookups and comparisons; [init_account] is kept
    folded and handled by [init_account_frame]. *)
Ltac unfold_m :=
  cbv beta iota zeta delta [execute step instr_body initialize create_project create_milestone
    fund_project transfer_to_vault submit_metrics release_milestone
    set_project_authority bind ret throw require ok_or get modify
    load_project load_vault load_milestone load_state system_lamports
    check_signer put_project put_state put_vault put_milestone
    put_lamports emit set_projects set_registry set_vaults set_milestones
    set_lamports checked_add_u64 checked_sub_u64 add_u8] in *; cbn in *.

Arguments init_account : simpl never.

(** Unfold [init_account] too, for the proofs that follow its steps. *)
Ltac unfold_init :=
  cbv beta iota zeta delta [init_account bind ret throw get modify system_lamports
    put_lamports set_lamports] in *; cbn in *.

Ltac zbool :=
  repeat match goal with
  | H : (_ =? _) = true |- _ => apply Z.eqb_eq in H
  | H : (_ =? _) = false |- _ => apply Z.eqb_neq in H
  | H : (_ <=? _) = true |- _ => apply Z.leb_le in H
  | H : (_ <=? _) = false |- _ => apply Z.leb_gt in H
  | H : (_ >=? _) = true |- _ => apply Z.geb_le in H
  | H : (_ >=? _) = false |- _ => rewrite Z.geb_leb in H; apply Z.leb_gt in H
  | H : (_ >? _) = true |- _ => apply Z.gtb_lt in H
  | H : (_ >? _) = false |- _ => rewrite Z.gtb_ltb in H; apply Z.ltb_ge in H
  | H : (_ || _)%bool = true |- _ => apply orb_true_iff in H
  | H : (_ || _)%bool = false |- _ => apply orb_false_iff in H; destruct H
  | H : (_ && _)%bool = true |- _ => apply andb_true_iff in H; destruct H
  | H : negb _ = true |- _ => apply negb_true_iff in H
  | H : negb _ = false |- _ => apply negb_false_iff in H
  end.

(** A successful [init] writes no account of the program other than
    lamports, found no account under its key, and leaves the new account
    with the larger of the lamports already at its address and the
    rent-exempt minimum.  The payer is not the new address; the new
    address leaves the system accounts; no system account other than
    the payer changes, and the payer gives at most the rent-exempt
    minimum when the address held a non-negative balance. *)
Lemma init_account_frame {K V} `{Countable K} (store : World -> gmap K V) (k : K) (held : V -> Z)
    (addr : Pubkey) (sg : bool) (payer : Pubkey) (space : Z) (w : World) (r : Z) (w' : World) :
  init_account store k held addr sg payer space w = Ok (r, w') ->
  exists l, w' = mkWorld (registry w) (projects w) (vaults w) (milestones w) l (events w) /\
    store w !! k = None /\
    (0 <= space -> r = Z.max (default 0 (lamports w !! addr)) (rent_minimum_balance space)) /\
    (0 <= space -> payer <> addr) /\
    l !! addr = None /\
    (forall a, a <> addr -> a <> payer -> l !! a = lamports w !! a) /\
    (0 <= default 0 (lamports w !! addr) -> 0 <= space ->
       default 0 (lamports w !! payer) - rent_minimum_balance space <= default 0 (l !! payer)).
Proof.
  intros Hi. unfold_init.
  repeat (match goal with
          | H : context [match ?x with _ => _ end] |- _ => destruct x eqn:?
          end; cbn in *; simplify_eq/=; try discriminate).
  all: zbool; eexists; (split; [reflexivity | split; [reflexivity |]]);
    unfold rent_minimum_balance in *.
  all: repeat split; intros; try (assert (payer <> addr) by (intros ->; lia)); try congruence;
    rewrite ?lookup_delete_eq, ?lookup_delete_ne, ?lookup_insert_ne by congruence;
    rewrite ?lookup_insert_eq; cbn; try reflexivity; lia.
Qed.

(** [init] succeeds at a PDA that holds no account, from a payer other
    than the new address that can pay the rent-exempt minimum. *)
Lemma init_account_ok {K V} `{Countable K} (store : World -> gmap K V) (k : K) (held : V -> Z)
    (addr : Pubkey) (payer : Pubkey) (space : Z) (w : World) :
  store w !! k = None ->
  payer <> addr ->
  0 <= default 0 (lamports w !! addr) ->
  0 <= space ->
  rent_minimum_balance space <= default 0 (lamports w !! payer) ->
  exists r w', init_account store k held addr true payer space w = Ok (r, w').
Proof.
  intros Hk Hpa H0 Hs Hb. unfold_init. rewrite Hk. cbn.
  unfold rent_minimum_balance in *.
  repeat (match goal with
          | |- context [if ?b then _ else _] => destruct b eqn:?
          | H : context [if ?b then _ else _] |- _ => destruct b eqn:?
          end; cbn in *; zbool); try congruence; try lia; eauto.
Qed.

(** Case on every match in the hypotheses and the goal, closing the
    branches that contradict an earlier lookup. *)
Ltac crush_m :=
  repeat (first
    [ match goal with
      | H1 : ?x = Some _, H2 : ?y = None |- _ =>
          unify x y; change y with x in H2; rewrite H1 in H2; discriminate H2
      | H1 : ?x = Some _, H2 : ?x = Some _ |- _ =>
          rewrite H1 in H2; injection H2 as H2; subst
      | H1 : ?x = true, H2 : ?x = false |- _ => rewrite H1 in H2; discriminate H2
      end
    | match goal with
      | H : <[?k:=_]> _ !! ?k = _ |- _ => rewrite lookup_insert_eq in H
      | H : init_account _ _ _ _ _ _ _ _ = Ok (_, _) |- _ =>
          let l := fresh "l" in let Hn := fresh "Hn" in let Hr := fresh "Hr" in
          destruct (init_account_frame _ _ _ _ _ _ _ _ _ _ H)
            as (l & -> & Hn & Hr & ? & ? & ? & ?);
          clear H; cbn in *
      end
    | progress simplify_eq/=
    | progress zbool
    | match goal with
      | H : context [match ?x with _ => _ end] |- _ => destruct x eqn:?
      | |- context [match ?x with _ => _ end] => destruct x eqn:?
      end ]).

(** ** Sanity checks of the model on the spec's end-to-end scenario *)

Definition demo_payee : Pubkey := 77.
Definition demo_world0 : World :=
  mkWorld ∅ ∅ ∅ ∅ {[ 2 := 1000000000; 3 := 1000000000; 5 := 100; 9 := 1000000000 ]} [].
Definition demo_setup : list Instr :=
  [ IInitialize {| in_state := 1; in_authority := 2; in_authority_signer := true;
                 in_state_signer := true |};
    ICreateProject {| cp_state := 1; cp_project := 10; cp_vault_key := 11; cp_vault_bump := 255;
                      cp_creator := 3; cp_creator_signer := true; cp_authority := 2;
                      cp_name := "solar"; cp_description := "farm";
                      cp_governance_authority := 4; cp_oracle_authority := 6 |};
    ICreateMilestone {| cm_project := 10; cm_creator := 3; cm_creator_signer := true;
                        cm_governance_authority := 0; cm_index := 0; cm_amount_lamports := 10;
                        cm_kwh_target := 1000; cm_co2_target := 50; cm_payee := demo_payee;
                        cm_milestone := 100 |};
    IFundProject {| fp_project := 10; fp_funder := 5; fp_funder_signer := true; fp_amount := 10 |};
    ISubmitMetrics {| sm_project := 10; sm_oracle_authority := 6; sm_oracle_signer := true;
                      sm_kwh_delta := 500; sm_co2_delta := 20; sm_new_root := None |} ].
Definition demo_release : ReleaseMilestoneCtx :=
  {| rm_project := 10; rm_milestone := (10, 0); rm_payee := demo_payee;
     rm_governance_authority := 4; rm_governance_signer := true |}.
Definition demo_world1 : World := run demo_world0 demo_setup.
Definition demo_world2 : World :=
  step demo_world1 (ISubmitMetrics {| sm_project := 10; sm_oracle_authority := 6;
                      sm_oracle_signer := true; sm_kwh_delta := 600; sm_co2_delta := 40;
                      sm_new_root := None |}).

Example demo_release_too_early :
  snd (execute (release_milestone demo_release) demo_world1) = Err (Custom MetricThresholdNotMet).
Proof. vm_compute. reflexivity. Qed.

Example demo_release_ok :
  let (w', r) := execute (release_milestone demo_release) demo_world2 in
  r = Ok tt /\ vaults w' !! 10 = Some (rent_minimum_balance VAULT_SPACE) /\ lamports w' !! demo_payee = Some 10
  /\ option_map released (milestones w' !! (10, 0)) = Some true.
Proof. vm_compute. repeat split. Qed.

(** ** Release engine *)





Ltac lookup_demo w k p Hp :=
  destruct (projects w !! k) as [p|] eqn:Hp; [| vm_compute in Hp; discriminate Hp];
  let Hp' := fresh in pose proof Hp as Hp'; vm_compute in Hp'; injection Hp' as <-.

Ltac lookup_demo_ms w k m Hm :=
  destruct (milestones w !! k) as [m|] eqn:Hm; [| vm_compute in Hm; discriminate Hm];
  let Hm' := fresh in pose proof Hm as Hm'; vm_compute in Hm'; injection Hm' as <-.




(** ** One-time release *)

Lemma lookup_insert_cases {K V} `{Countable K} (m : gmap K V) (k k' : K) (v : V) :
  <[k:=v]> m !! k' = if decide (k = k') then Some v else m !! k'.
Proof. apply lookup_insert. Qed.




Lemma release_success_effect (c : ReleaseMilestoneCtx) (w w' : World) :
  execute (release_milestone c) w = (w', Ok tt) ->
  exists ms vb,
    milestones w !! rm_milestone c = Some ms /\ released ms = false /\
    vaults w !! rm_project c = Some vb /\
    vaults w' !! rm_project c = Some (vb - amount_lamports ms) /\
    amount_lamports ms <= vb /\
    lamports w' !! rm_payee c = Some (default 0 (lamports w !! rm_payee c) + amount_lamports ms) /\
    milestones w' !! rm_milestone c =
      Some (mkMilestone (project ms) (index ms) (amount_lamports ms) (kwh_target ms)
                        (co2_target ms) (payee ms) true).
Proof.
  intros H. unfold_m. crush_m.
  do 2 eexists. repeat split; eauto.
  - rewrite lookup_insert_eq. reflexivity.
  - rewrite lookup_insert_eq. reflexivity.
  - rewrite lookup_insert_eq. reflexivity.
Qed.




(** ** Transfer of the payout *)

(** C3.  A successful release debits the vault and credits the payee by
    exactly the milestone's payout; a failed release (whatever the
    failing check, the payee overflow included) leaves every account,
    vault and payee among them, as it was. *)
Theorem release_milestone_transfer_atomic (c : ReleaseMilestoneCtx) (w : World) :
  match execute (release_milestone c) w with
  | (w', Ok _) =>
      exists ms vb,
        milestones w !! rm_milestone c = Some ms /\
        vaults w !! rm_project c = Some vb /\
        vaults w' !! rm_project c = Some (vb - amount_lamports ms) /\
        lamports w' !! rm_payee c
          = Some (default 0 (lamports w !! rm_payee c) + amount_lamports ms)
  | (w', Err _) => w' = w
  end.
Proof.
  destruct (execute (release_milestone c) w) as [w' r] eqn:E.
  destruct r as [[]|e].
  - destruct (release_success_effect c w w' E) as (ms & vb & Hm & _ & Hv & Hv' & _ & Hl & _).
    eauto 7.
  - unfold execute in E. destruct (release_milestone c w) as [[? ?]|]; congruence.
Qed.

(** The payee credit overflows after the vault has been debited in the
    handler's working copy; the failed instruction commits nothing. *)
Definition demo_world_rich_payee : World := set_lamports (insert demo_payee U64_MAX) demo_world2.

Example release_payee_overflow_rolls_back :
  execute (release_milestone demo_release) demo_world_rich_payee
  = (demo_world_rich_payee, Err (Custom NumericalOverflow)).
Proof. vm_compute. reflexivity. Qed.

(** ** Overflow guards of the running totals *)

Lemma execute_err_unchanged (m : M unit) (w w' : World) (e : Error) :
  execute m w = (w', Err e) -> w' = w.
Proof. unfold execute. destruct (m w) as [[? ?]|]; congruence. Qed.

Lemma submit_metrics_overflow (c : SubmitMetricsCtx) (w : World) (p : Project) :
  projects w !! sm_project c = Some p ->
  sm_oracle_signer c = true ->
  oracle_authority p = sm_oracle_authority c ->
  U64_MAX < kwh_total p + sm_kwh_delta c \/ U64_MAX < co2_total p + sm_co2_delta c ->
  execute (submit_metrics c) w = (w, Err (Custom NumericalOverflow)).
Proof.
  intros Hp Hs Ho Hov. unfold_m. crush_m; try congruence; try lia.
Qed.

Lemma fund_project_overflow (c : FundProjectCtx) (w : World) (p : Project) (vb : Z) :
  projects w !! fp_project c = Some p ->
  vaults w !! fp_project c = Some vb ->
  fp_funder_signer c = true ->
  0 < fp_amount c ->
  fp_amount c <= default 0 (lamports w !! fp_funder c) ->
  vb + fp_amount c <= U64_MAX ->
  U64_MAX < funded_amount p + fp_amount c ->
  execute (fund_project c) w = (w, Err (Custom NumericalOverflow)).
Proof.
  intros Hp Hv Hs Ha Hb Hvb Hov. unfold_m. crush_m; try congruence; try lia.
Qed.

(** C4 (amended).  Once the checks that precede the additions pass
    (for [submit_metrics]: the recorded oracle authority signs; for
    [fund_project]: amount > 0 and the system transfer into the vault
    succeeds), a kwh, co2 or funded total that would exceed u64::MAX makes
    the call fail with NumericalOverflow, also when only the co2 addition
    overflows; and every failing call of any instruction, this one
    included, leaves all totals (indeed all accounts) unchanged. *)
Theorem totals_overflow_guard :
  (forall (c : SubmitMetricsCtx) (w : World) (p : Project),
     projects w !! sm_project c = Some p ->
     sm_oracle_signer c = true ->
     oracle_authority p = sm_oracle_authority c ->
     U64_MAX < kwh_total p + sm_kwh_delta c \/ U64_MAX < co2_total p + sm_co2_delta c ->
     execute (submit_metrics c) w = (w, Err (Custom NumericalOverflow))) /\
  (forall (c : FundProjectCtx) (w : World) (p : Project) (vb : Z),
     projects w !! fp_project c = Some p ->
     vaults w !! fp_project c = Some vb ->
     fp_funder_signer c = true ->
     0 < fp_amount c ->
     fp_amount c <= default 0 (lamports w !! fp_funder c) ->
     vb + fp_amount c <= U64_MAX ->
     U64_MAX < funded_amount p + fp_amount c ->
     execute (fund_project c) w = (w, Err (Custom NumericalOverflow))) /\
  (forall (i : Instr) (w w' : World) (e : Error),
     execute (instr_body i) w = (w', Err e) -> w' = w).
Proof.
  split; [exact submit_metrics_overflow|].
  split; [exact fund_project_overflow|].
  intros i. apply execute_err_unchanged.
Qed.

(** The kWh addition fits, the CO2 addition overflows. *)
Definition demo_co2_overflow : SubmitMetricsCtx :=
  {| sm_project := 10; sm_oracle_authority := 6; sm_oracle_signer := true;
     sm_kwh_delta := 1; sm_co2_delta := U64_MAX; sm_new_root := None |}.

Lemma totals_overflow_guard_witness :
  execute (submit_metrics demo_co2_overflow) demo_world1
  = (demo_world1, Err (Custom NumericalOverflow)).
Proof.
  destruct totals_overflow_guard as [H _].
  lookup_demo demo_world1 (sm_project demo_co2_overflow) p Hp.
  apply (H _ _ _ Hp); [reflexivity | reflexivity | right; vm_compute; reflexivity].
Defined.

(** C4 counterexample: an overflowing [submit_metrics] sent by a key
    other than the oracle authority fails with Unauthorized. *)
Lemma totals_overflow_guard_counterexample :
  ~ (forall (c : SubmitMetricsCtx) (w : World) (p : Project),
       projects w !! sm_project c = Some p ->
       U64_MAX < kwh_total p + sm_kwh_delta c \/ U64_MAX < co2_total p + sm_co2_delta c ->
       snd (execute (submit_metrics c) w) = Err (Custom NumericalOverflow)).
Proof.
  intros H.
  set (c := {| sm_project := 10; sm_oracle_authority := 9; sm_oracle_signer := true;
               sm_kwh_delta := U64_MAX; sm_co2_delta := 0; sm_new_root := None |}).
  lookup_demo demo_world1 (sm_project c) p Hp.
  assert (Hu : snd (execute (submit_metrics c) demo_world1) = Err (Custom Unauthorized))
    by (vm_compute; reflexivity).
  rewrite (H c demo_world1 _ Hp) in Hu; [discriminate Hu | left; vm_compute; reflexivity].
Qed.

(** ** Milestone creation *)

(** C5 (code bug).  [create_milestone] accepts a call from ANY signer
    who passes the project's governance-authority key in the unchecked
    [governance_authority] account: that account is never required to
    sign, unlike the governance signer of [release_milestone] and
    [set_project_authority].  The call succeeds whenever the signer,
    which pays for the new milestone account, can pay its rent-exempt
    minimum and is not the milestone address itself. *)
Theorem create_milestone_unsigned_governance (c : CreateMilestoneCtx) (w : World) (p : Project) :
  projects w !! cm_project c = Some p ->
  milestones w !! (cm_project c, cm_index c) = None ->
  cm_creator_signer c = true ->
  cm_creator c <> cm_milestone c ->
  0 <= default 0 (lamports w !! cm_milestone c) ->
  rent_minimum_balance MILESTONE_SPACE <= default 0 (lamports w !! cm_creator c) ->
  cm_governance_authority c = governance_authority p ->
  cm_index c + 1 <= U8_MAX ->
  snd (execute (create_milestone c) w) = Ok tt.
Proof.
  intros Hp Hm Hs Hpa Hm0 Hb Hg Hi. unfold_m. unfold_init.
  crush_m; unfold rent_minimum_balance, MILESTONE_SPACE in *; try congruence; try lia.
Qed.

(** Key 9 is neither the creator (3) nor the governance authority (4)
    of project 10; it holds 10^9 lamports, signs as [creator] and names
    key 4 unsigned. *)
Definition demo_intruder_milestone : CreateMilestoneCtx :=
  {| cm_project := 10; cm_creator := 9; cm_creator_signer := true;
     cm_governance_authority := 4; cm_index := 1; cm_amount_lamports := 10;
     cm_kwh_target := 0; cm_co2_target := 0; cm_payee := 9;
     cm_milestone := 101 |}.

Lemma create_milestone_unsigned_governance_witness :
  snd (execute (create_milestone demo_intruder_milestone) demo_world1) = Ok tt.
Proof.
  lookup_demo demo_world1 (cm_project demo_intruder_milestone) p Hp.
  apply (create_milestone_unsigned_governance _ _ _ Hp);
    vm_compute; first [reflexivity | discriminate].
Defined.

(** C6.  A successful [create_milestone] leaves the project's milestone
    count equal to max(previous count, index + 1) and stores the new
    milestone unreleased.  (An index of 255 makes [index + 1] overflow
    the u8 and the call abort, so no other count is produced.) *)
Theorem create_milestone_count (c : CreateMilestoneCtx) (w w' : World) :
  execute (create_milestone c) w = (w', Ok tt) ->
  exists p p',
    projects w !! cm_project c = Some p /\
    projects w' !! cm_project c = Some p' /\
    num_milestones p' = Z.max (num_milestones p) (cm_index c + 1) /\
    cm_index c + 1 <= U8_MAX /\
    milestones w' !! (cm_project c, cm_index c)
      = Some (mkMilestone (cm_project c) (cm_index c) (cm_amount_lamports c)
                          (cm_kwh_target c) (cm_co2_target c) (cm_payee c) false).
Proof.
  intros H. unfold_m. crush_m.
  - do 2 eexists. rewrite !lookup_insert_eq. repeat split; eauto; cbn; lia.
  - do 2 eexists. rewrite !lookup_insert_eq. repeat split; eauto; cbn; lia.
Qed.

Lemma create_milestone_count_witness :
  exists p', projects (fst (execute (create_milestone demo_intruder_milestone) demo_world1)) !! 10
             = Some p' /\ num_milestones p' = 2.
Proof.
  assert (H : execute (create_milestone demo_intruder_milestone) demo_world1
              = (fst (execute (create_milestone demo_intruder_milestone) demo_world1), Ok tt))
    by (vm_compute; reflexivity).
  destruct (create_milestone_count _ _ _ H) as (p & p' & Hp & Hp' & Hn & _ & _).
  exists p'. split; [exact Hp'|]. rewrite Hn.
  vm_compute in Hp. injection Hp as <-. reflexivity.
Defined.

(** ** Monotonic totals *)

Lemma step_totals_mono (w : World) (i : Instr) (k : Pubkey) (p : Project) :
  instr_args_ok i = true ->
  projects w !! k = Some p ->
  exists p', projects (step w i) !! k = Some p' /\
    kwh_total p <= kwh_total p' /\ co2_total p <= co2_total p' /\
    funded_amount p <= funded_amount p'.
Proof.
  intros Hok Hp. destruct i; cbn in Hok; unfold u64b, u8b in Hok; zbool;
    unfold_m; crush_m; try (eexists; split; [eassumption| lia]);
    rewrite ?lookup_insert_cases; repeat case_decide; subst; crush_m;
    try (eexists; split; [reflexivity| cbn; lia]);
    try (eexists; split; [eassumption| lia]).
Qed.

Lemma run_totals_mono (is : list Instr) (w : World) (k : Pubkey) (p : Project) :
  forallb instr_args_ok is = true ->
  projects w !! k = Some p ->
  exists p', projects (run w is) !! k = Some p' /\
    kwh_total p <= kwh_total p' /\ co2_total p <= co2_total p' /\
    funded_amount p <= funded_amount p'.
Proof.
  revert w p. induction is as [|i is IH]; intros w p Hok Hp; cbn in *.
  - exists p. split; [exact Hp|]. repeat split; lia.
  - apply andb_true_iff in Hok as [Hi Hrest].
    destruct (step_totals_mono w i k p Hi Hp) as (p1 & Hp1 & H1 & H2 & H3).
    destruct (IH (step w i) p1 Hrest Hp1) as (p2 & Hp2 & H4 & H5 & H6).
    exists p2. split; [exact Hp2|]. repeat split; lia.
Qed.

Lemma submit_metrics_success (c : SubmitMetricsCtx) (w w' : World) :
  execute (submit_metrics c) w = (w', Ok tt) ->
  exists p p', projects w !! sm_project c = Some p /\ projects w' !! sm_project c = Some p' /\
    kwh_total p' = kwh_total p + sm_kwh_delta c /\ co2_total p' = co2_total p + sm_co2_delta c.
Proof.
  intros H. unfold_m. crush_m; do 2 eexists; rewrite !lookup_insert_eq; repeat split; eauto.
Qed.

(** C7 (amended).  A successful [submit_metrics] adds its deltas to the
    totals, so each total grows strictly exactly when its delta is
    positive and stays equal for a zero delta; across any sequence of
    instructions with well-formed arguments no project's kwh_total,
    co2_total or funded_amount ever decreases. *)
Theorem metrics_totals_monotone :
  (forall (c : SubmitMetricsCtx) (w w' : World),
     execute (submit_metrics c) w = (w', Ok tt) ->
     exists p p', projects w !! sm_project c = Some p /\ projects w' !! sm_project c = Some p' /\
       kwh_total p' = kwh_total p + sm_kwh_delta c /\ co2_total p' = co2_total p + sm_co2_delta c /\
       (kwh_total p < kwh_total p' <-> 0 < sm_kwh_delta c) /\
       (co2_total p < co2_total p' <-> 0 < sm_co2_delta c)) /\
  (forall (is : list Instr) (w : World) (k : Pubkey) (p : Project),
     forallb instr_args_ok is = true ->
     projects w !! k = Some p ->
     exists p', projects (run w is) !! k = Some p' /\
       kwh_total p <= kwh_total p' /\ co2_total p <= co2_total p').
Proof.
  split.
  - intros c w w' H.
    destruct (submit_metrics_success c w w' H) as (p & p' & Hp & Hp' & Hk & Hc).
    exists p, p'. repeat split; auto; lia.
  - intros is w k p Hok Hp.
    destruct (run_totals_mono is w k p Hok Hp) as (p' & Hp' & H1 & H2 & _).
    eauto.
Qed.

Definition demo_submit_more : SubmitMetricsCtx :=
  {| sm_project := 10; sm_oracle_authority := 6; sm_oracle_signer := true;
     sm_kwh_delta := 600; sm_co2_delta := 40; sm_new_root := None |}.

Lemma metrics_totals_monotone_witness :
  exists p', projects (fst (execute (submit_metrics demo_submit_more) demo_world1)) !! 10 = Some p'
             /\ kwh_total p' = 1100 /\ co2_total p' = 60.
Proof.
  assert (H : execute (submit_metrics demo_submit_more) demo_world1
              = (fst (execute (submit_metrics demo_submit_more) demo_world1), Ok tt))
    by (vm_compute; reflexivity).
  destruct (proj1 metrics_totals_monotone _ _ _ H) as (p & p' & Hp & Hp' & Hk & Hc & _).
  exists p'. split; [exact Hp'|]. rewrite Hk, Hc.
  vm_compute in Hp. injection Hp as <-. split; reflexivity.
Defined.

(** C7 counterexample: a successful [submit_metrics] with zero deltas
    leaves both totals where they were. *)
Definition demo_submit_zero : SubmitMetricsCtx :=
  {| sm_project := 10; sm_oracle_authority := 6; sm_oracle_signer := true;
     sm_kwh_delta := 0; sm_co2_delta := 0; sm_new_root := None |}.

Lemma metrics_totals_monotone_counterexample :
  snd (execute (submit_metrics demo_submit_zero) demo_world1) = Ok tt /\
  option_map kwh_total (projects (fst (execute (submit_metrics demo_submit_zero) demo_world1)) !! 10)
    = option_map kwh_total (projects demo_world1 !! 10) /\
  option_map co2_total (projects (fst (execute (submit_metrics demo_submit_zero) demo_world1)) !! 10)
    = option_map co2_total (projects demo_world1 !! 10).
Proof. vm_compute. repeat split. Qed.

(** ** Upgrade state machine *)

Module UpgradeProofs.
Import Upgrade.






(** ** Approval counting *)

Lemma add_approvals_count (n : nat) (m m' : MigrationState) :
  add_approvals n m = Some m' ->
  approval_count m' = approval_count m + Z.of_nat n /\
  required_approvals m' = required_approvals m.
Proof.
  revert m. induction n as [|n IH]; intros m H; cbn in H.
  - injection H as <-. split; lia.
  - destruct (add_approval m) as [m1|] eqn:E; [|discriminate].
    destruct (IH m1 H) as [H1 H2].
    unfold add_approval, add_u8 in E.
    destruct (approval_count m + 1 <=? U8_MAX); [|discriminate].
    injection E as <-. cbn in *. split; lia.
Qed.




End UpgradeProofs.

(** ** Completion percentage *)

Module EscrowProofs.
Import Escrow.

(** C10 (amended).  For all u8 field values [completion_percentage] is
    total: it never panics, returns 0 when milestone_count = 0, and
    otherwise returns floor(completed_milestones * 100 / milestone_count)
    truncated to its low 8 bits by the final [as u8] cast; the u16
    product never overflows.  When completed_milestones <=
    milestone_count the truncation is the identity and the result is
    floor(completed * 100 / count), at most 100. *)
Theorem completion_percentage_total (e : EscrowAccount) :
  is_u8 (milestone_count e) -> is_u8 (completed_milestones e) ->
  completed_milestones e * 100 <= U16_MAX /\
  completion_percentage e =
    Some (if milestone_count e =? 0 then 0
          else (completed_milestones e * 100 / milestone_count e) mod 256) /\
  (milestone_count e <> 0 -> completed_milestones e <= milestone_count e ->
   completion_percentage e = Some (completed_milestones e * 100 / milestone_count e) /\
   completed_milestones e * 100 / milestone_count e <= 100).
Proof.
  unfold is_u8, U8_MAX, U16_MAX. intros Hm Hc.
  assert (Hprod : completed_milestones e * 100 <= 65535) by lia.
  assert (Hval : completion_percentage e =
    Some (if milestone_count e =? 0 then 0
          else (completed_milestones e * 100 / milestone_count e) mod 256)).
  { unfold completion_percentage, mul_u16, div_u16, as_u8, U16_MAX.
    destruct (milestone_count e =? 0) eqn:E0; [reflexivity|].
    destruct (completed_milestones e * 100 <=? 65535) eqn:E1;
      [| apply Z.leb_gt in E1; lia].
    reflexivity. }
  split; [exact Hprod|]. split; [exact Hval|].
  intros Hnz Hle. rewrite Hval.
  destruct (milestone_count e =? 0) eqn:E0; zbool; [lia|].
  assert (Hq : completed_milestones e * 100 / milestone_count e <= 100).
  { apply Z.div_le_upper_bound; lia. }
  assert (Hq0 : 0 <= completed_milestones e * 100 / milestone_count e)
    by (apply Z.div_pos; lia).
  rewrite Z.mod_small by lia. split; [reflexivity | exact Hq].
Qed.

Definition demo_escrow (count completed : Z) : EscrowAccount :=
  mkEscrowAccount "p" 0 0 0 count completed Active 0 0 0.

Lemma completion_percentage_total_witness :
  completion_percentage (demo_escrow 3 1) = Some 33.
Proof.
  destruct (completion_percentage_total (demo_escrow 3 1)) as (_ & _ & H);
    [unfold is_u8, U8_MAX; cbn; lia .. |].
  destruct H as [H _]; [cbn; lia | cbn; lia |].
  rewrite H. reflexivity.
Defined.

(** C10 counterexample: with 3 completed milestones out of 1 the
    quotient is 300, and the [as u8] cast returns 44, not 300. *)
Lemma completion_percentage_total_counterexample :
  completion_percentage (demo_escrow 1 3) = Some 44 /\
  completed_milestones (demo_escrow 1 3) * 100 / milestone_count (demo_escrow 1 3) = 300.
Proof. split; reflexivity. Qed.

End EscrowProofs.


(* ================================================================== *)
(** * Further properties of the instructions *)

(** ** Initialisation and project creation *)

(** [initialize] creates the State account once.  Without the
    authority's signature it fails with AccountNotSigner; when both
    signatures are present and the payer is not the State address, it
    fails with AccountAlreadyInUse at an address that already holds a
    State.  A success had the authority's signature, found no State at
    the address, and stores the caller as authority with a zero project
    counter. *)
Theorem initialize_once (c : InitializeCtx) (w : World) :
  (in_authority_signer c = false ->
     execute (initialize c) w = (w, Err AccountNotSigner)) /\
  (forall s, registry w !! in_state c = Some s ->
     in_authority_signer c = true -> in_state_signer c = true ->
     in_authority c <> in_state c ->
     execute (initialize c) w = (w, Err AccountAlreadyInUse)) /\
  (forall w', execute (initialize c) w = (w', Ok tt) ->
     in_authority_signer c = true /\
     registry w !! in_state c = None /\
     registry w' !! in_state c = Some (mkState (in_authority c) 0)).
Proof.
  split; [|split].
  - intros Hs. unfold_m. rewrite Hs. reflexivity.
  - intros s Hs Ha Hst Hne. unfold_m. rewrite Ha. unfold_init. rewrite Hs, Hst.
    unfold rent_minimum_balance, STATE_SPACE. cbn.
    destruct (in_authority c =? in_state c) eqn:E; zbool; [congruence|]. reflexivity.
  - intros w' H. unfold_m. crush_m. rewrite lookup_insert_eq. auto.
Qed.

Lemma initialize_once_witness :
  execute (initialize {| in_state := 1; in_authority := 2; in_authority_signer := true;
                 in_state_signer := true |})
          demo_world1
  = (demo_world1, Err AccountAlreadyInUse).
Proof.
  set (c := {| in_state := 1; in_authority := 2; in_authority_signer := true;
                 in_state_signer := true |}).
  destruct (registry demo_world1 !! in_state c) as [s|] eqn:Hs;
    [| vm_compute in Hs; discriminate Hs].
  exact (proj1 (proj2 (initialize_once c demo_world1)) s Hs eq_refl eq_refl
           ltac:(vm_compute; discriminate)).
Defined.

(** With valid accounts (a State whose authority is passed, the
    creator's signature, fresh project and vault PDAs at distinct
    addresses, and a creator that can pay both rent-exempt minimums), a
    name over 64 bytes or a description over 256 bytes makes
    [create_project] fail with StringTooLong, and the failed instruction
    leaves every account as it was. *)
Theorem create_project_string_too_long (c : CreateProjectCtx) (w : World) (s : State) :
  registry w !! cp_state c = Some s ->
  authority s = cp_authority c ->
  project_count s + 1 <= U64_MAX ->
  projects w !! cp_project c = None ->
  vaults w !! cp_project c = None ->
  cp_creator_signer c = true ->
  cp_project c <> cp_vault_key c ->
  cp_creator c <> cp_project c ->
  cp_creator c <> cp_vault_key c ->
  0 <= default 0 (lamports w !! cp_project c) ->
  0 <= default 0 (lamports w !! cp_vault_key c) ->
  rent_minimum_balance PROJECT_SPACE + rent_minimum_balance VAULT_SPACE
    <= default 0 (lamports w !! cp_creator c) ->
  (64 < String.length (cp_name c))%nat \/ (256 < String.length (cp_description c))%nat ->
  execute (create_project c) w = (w, Err (Custom StringTooLong)).
Proof.
  intros Hs Ha Hc Hp Hv Hsg Hpv Hcp Hcv Hp0 Hv0 Hb Hlen.
  assert (Hrp : 0 <= rent_minimum_balance PROJECT_SPACE) by (vm_compute; discriminate).
  assert (Hrv : 0 <= rent_minimum_balance VAULT_SPACE) by (vm_compute; discriminate).
  destruct (init_account_ok projects (cp_project c) (fun _ => rent_minimum_balance PROJECT_SPACE)
              (cp_project c) (cp_creator c) PROJECT_SPACE w)
    as (r1 & w1 & E1); [exact Hp | exact Hcp | exact Hp0 | vm_compute; discriminate | lia |].
  destruct (init_account_frame _ _ _ _ _ _ _ _ _ _ E1)
    as (l1 & -> & _ & _ & _ & _ & Hl1 & Hd1).
  destruct (init_account_ok vaults (cp_project c) (fun b => b) (cp_vault_key c) (cp_creator c)
              VAULT_SPACE (mkWorld (registry w) (projects w) (vaults w) (milestones w) l1 (events w)))
    as (r2 & w2 & E2); cbn; rewrite ?Hl1 by congruence;
    [exact Hv | exact Hcv | exact Hv0 | vm_compute; discriminate
    | specialize (Hd1 Hp0 ltac:(vm_compute; discriminate)); lia |].
  destruct (init_account_frame _ _ _ _ _ _ _ _ _ _ E2) as (l2 & -> & _).
  unfold_m. rewrite Hs. cbn. rewrite Hsg. cbn.
  destruct (project_count s + 1 <=? U64_MAX) eqn:Ec; zbool; [|lia]. cbn.
  rewrite E1. cbn. rewrite E2. cbn. rewrite Ha, Z.eqb_refl. cbn.
  destruct ((String.length (cp_name c) <=? 64)%nat) eqn:En;
    [destruct ((String.length (cp_description c) <=? 256)%nat) eqn:Ed|];
    cbn; try reflexivity.
  apply Nat.leb_le in En. apply Nat.leb_le in Ed. lia.
Qed.

Definition demo_long_name : string :=
  "aaaaaaaaaaaaaaaaaaaaaaaaaaaaaaaaaaaaaaaaaaaaaaaaaaaaaaaaaaaaaaaaa".

Definition demo_create_long : CreateProjectCtx :=
  {| cp_state := 1; cp_project := 20; cp_vault_key := 21; cp_vault_bump := 254;
     cp_creator := 3; cp_creator_signer := true; cp_authority := 2;
     cp_name := demo_long_name; cp_description := "";
     cp_governance_authority := 4; cp_oracle_authority := 6 |}.

Lemma create_project_string_too_long_witness :
  execute (create_project demo_create_long) demo_world1
  = (demo_world1, Err (Custom StringTooLong)).
Proof.
  destruct (registry demo_world1 !! cp_state demo_create_long) as [s|] eqn:Hs;
    [| vm_compute in Hs; discriminate Hs].
  pose proof Hs as Hs'. vm_compute in Hs'. injection Hs' as <-.

  apply (create_project_string_too_long _ _ _ Hs);
    first [ left; apply Nat.ltb_lt; vm_compute; reflexivity
          | vm_compute; first [reflexivity | discriminate] ].
Defined.

(** A successful [create_project] (vault PDA and project PDA at
    distinct addresses) passed the State's authority and the creator's
    signature, increments the registry counter by one, and gives the new
    project that counter as id, zero totals, a zero metrics root and no
    milestones, at an address that held no project.  The new vault holds
    the larger of the lamports already at its address and the rent-exempt
    minimum of its 9 bytes; every other project is left as it was. *)
Theorem create_project_success (c : CreateProjectCtx) (w w' : World) :
  cp_vault_key c <> cp_project c ->
  execute (create_project c) w = (w', Ok tt) ->
  exists s,
    registry w !! cp_state c = Some s /\
    authority s = cp_authority c /\
    cp_creator_signer c = true /\
    registry w' !! cp_state c = Some (mkState (authority s) (project_count s + 1)) /\
    projects w !! cp_project c = None /\
    projects w' !! cp_project c =
      Some (mkProject (project_count s + 1) (cp_name c) (cp_description c) (cp_creator c)
              (cp_governance_authority c) (cp_oracle_authority c) (cp_vault_key c)
              (cp_vault_bump c) 0 0 0 (repeat 0 32) 0) /\
    vaults w !! cp_project c = None /\
    vaults w' !! cp_project c =
      Some (Z.max (default 0 (lamports w !! cp_vault_key c)) (rent_minimum_balance VAULT_SPACE)) /\
    (forall k, k <> cp_project c -> projects w' !! k = projects w !! k).
Proof.
  intros Hvp H. unfold_m. crush_m.
  assert (Hsp : 0 <= VAULT_SPACE) by (vm_compute; discriminate).
  match goal with
  | Hcv : 0 <= VAULT_SPACE -> cp_creator c <> cp_vault_key c |- _ => specialize (Hcv Hsp)
  end.
  match goal with
  | Hr : 0 <= VAULT_SPACE -> _ = _ |- _ => rewrite (Hr Hsp)
  end.
  match goal with
  | Hl : forall a, a <> cp_project c -> a <> cp_creator c -> _ !! a = _ |- _ =>
      rewrite Hl by auto
  end.
  eexists. rewrite !lookup_insert_eq.
  repeat split; auto. intros k Hk. rewrite lookup_insert_ne; auto.
Qed.

Definition demo_create2 : CreateProjectCtx :=
  {| cp_state := 1; cp_project := 20; cp_vault_key := 21; cp_vault_bump := 254;
     cp_creator := 3; cp_creator_signer := true; cp_authority := 2;
     cp_name := "wind"; cp_description := "";
     cp_governance_authority := 4; cp_oracle_authority := 6 |}.

Lemma create_project_success_witness :
  option_map id (projects (fst (execute (create_project demo_create2) demo_world1))
                  !! cp_project demo_create2)
  = Some 2.
Proof.
  assert (H : execute (create_project demo_create2) demo_world1
              = (fst (execute (create_project demo_create2) demo_world1), Ok tt))
    by (vm_compute; reflexivity).
  assert (Hvp : cp_vault_key demo_create2 <> cp_project demo_create2)
    by (vm_compute; discriminate).
  destruct (create_project_success _ _ _ Hvp H)
    as (s & Hs & _ & _ & _ & _ & Hp & _).
  rewrite Hp. vm_compute in Hs. injection Hs as <-. reflexivity.
Defined.

(** The registry's project counter never decreases and its authority
    never changes, whatever instructions run: [initialize] cannot
    overwrite an existing State and [create_project] only adds one. *)
Lemma step_registry_mono (w : World) (i : Instr) (k : Pubkey) (s : State) :
  registry w !! k = Some s ->
  exists s', registry (step w i) !! k = Some s' /\
    project_count s <= project_count s' /\ authority s' = authority s.
Proof.
  intros Hs. destruct i; unfold_m; crush_m; try (eexists; split; [eassumption | lia]);
    rewrite ?lookup_insert_cases; repeat case_decide; subst; crush_m;
    try (eexists; split; [reflexivity | cbn; lia]);
    try (eexists; split; [eassumption | lia]).
Qed.

(** A released milestone stays released under every instruction: the
    only writes to milestone accounts are [init] at a fresh address and
    the release itself. *)
Theorem registry_count_monotone (is : list Instr) (w : World) (k : Pubkey) (s : State) :
  registry w !! k = Some s ->
  exists s', registry (run w is) !! k = Some s' /\
    project_count s <= project_count s' /\ authority s' = authority s.
Proof.
  revert w s. induction is as [|i is IH]; intros w s Hs; cbn.
  - exists s. split; [exact Hs | split; [lia | reflexivity]].
  - destruct (step_registry_mono w i k s Hs) as (s1 & H1 & H2 & H3).
    destruct (IH _ _ H1) as (s2 & H4 & H5 & H6).
    exists s2. split; [exact H4 | split; [lia | congruence]].
Qed.

Lemma registry_count_monotone_witness :
  exists s', registry (run demo_world0 demo_setup) !! 1 = Some s' /\
    0 <= project_count s' /\ authority s' = 2.
Proof.
  destruct (registry_count_monotone (tail demo_setup) (step demo_world0
              (IInitialize {| in_state := 1; in_authority := 2; in_authority_signer := true;
                 in_state_signer := true |}))
              1 (mkState 2 0))
    as (s' & H1 & H2 & H3); [vm_compute; reflexivity|].
  exists s'. split; [exact H1 | split; [exact H2 | exact H3]].
Defined.

(** ** Milestones *)

(** [create_milestone] never overwrites a milestone: its account is
    created by [init], so a second call for the same project and index,
    signed by a creator other than the milestone address, fails with
    AccountAlreadyInUse and changes nothing. *)
Theorem create_milestone_no_overwrite (c : CreateMilestoneCtx) (w : World) (p : Project) (m : Milestone) :
  projects w !! cm_project c = Some p ->
  milestones w !! (cm_project c, cm_index c) = Some m ->
  cm_creator_signer c = true ->
  cm_creator c <> cm_milestone c ->
  execute (create_milestone c) w = (w, Err AccountAlreadyInUse).
Proof.
  intros Hp Hm Hs Hne. unfold_m. unfold_init.
  crush_m; unfold rent_minimum_balance, MILESTONE_SPACE in *; try congruence; try lia.
Qed.

Definition demo_recreate : CreateMilestoneCtx :=
  {| cm_project := 10; cm_creator := 3; cm_creator_signer := true;
     cm_governance_authority := 0; cm_index := 0; cm_amount_lamports := 99;
     cm_kwh_target := 0; cm_co2_target := 0; cm_payee := 3;
     cm_milestone := 100 |}.

Lemma create_milestone_no_overwrite_witness :
  execute (create_milestone demo_recreate) demo_world1 = (demo_world1, Err AccountAlreadyInUse).
Proof.
  lookup_demo demo_world1 (cm_project demo_recreate) p Hp.
  lookup_demo_ms demo_world1 (cm_project demo_recreate, cm_index demo_recreate) m Hm.
  exact (create_milestone_no_overwrite demo_recreate demo_world1 _ _ Hp Hm eq_refl
           ltac:(vm_compute; discriminate)).
Defined.

Lemma step_milestone_terms (w : World) (i : Instr) (k : MilestoneKey) (m : Milestone) :
  milestones w !! k = Some m ->
  exists m', milestones (step w i) !! k = Some m' /\
    project m' = project m /\ index m' = index m /\ amount_lamports m' = amount_lamports m /\
    kwh_target m' = kwh_target m /\ co2_target m' = co2_target m /\ payee m' = payee m /\
    (released m = true -> released m' = true).
Proof.
  intros Hm. destruct i; unfold_m; crush_m;
    try (eexists; split; [eassumption | tauto]);
    rewrite ?lookup_insert_cases; repeat case_decide; subst; crush_m;
    try (eexists; split; [reflexivity | cbn; tauto]);
    try (eexists; split; [eassumption | tauto]).
Qed.

(** Once created, a milestone's terms (project, index, payout, targets,
    payee) never change under any instruction, and its released flag
    only goes from false to true. *)
Theorem milestone_terms_stable (is : list Instr) (w : World) (k : MilestoneKey) (m : Milestone) :
  milestones w !! k = Some m ->
  exists m', milestones (run w is) !! k = Some m' /\
    project m' = project m /\ index m' = index m /\ amount_lamports m' = amount_lamports m /\
    kwh_target m' = kwh_target m /\ co2_target m' = co2_target m /\ payee m' = payee m /\
    (released m = true -> released m' = true).
Proof.
  revert w m. induction is as [|i is IH]; intros w m Hm; cbn.
  - exists m. split; [exact Hm | tauto].
  - destruct (step_milestone_terms w i k m Hm) as (m1 & H1 & E1 & E2 & E3 & E4 & E5 & E6 & E7).
    destruct (IH _ _ H1) as (m2 & H2 & F1 & F2 & F3 & F4 & F5 & F6 & F7).
    exists m2. split; [exact H2|]. repeat split; try congruence. tauto.
Qed.

Definition demo_after : list Instr :=
  [ ICreateMilestone demo_recreate;
    IReleaseMilestone demo_release;
    ISetProjectAuthority {| sa_project := 10; sa_current_governance_authority := 4;
                            sa_current_signer := true; sa_new_governance_authority := 8 |} ].

Lemma milestone_terms_stable_witness :
  exists m', milestones (run demo_world1 demo_after) !! (10, 0) = Some m' /\ amount_lamports m' = 10.
Proof.
  lookup_demo_ms demo_world1 (10, 0) m Hm.
  destruct (milestone_terms_stable demo_after demo_world1 (10, 0) _ Hm)
    as (m' & H & _ & _ & E & _).
  exists m'. split; [exact H | exact E].
Defined.

(** ** Funding *)

(** A successful [fund_project] moves exactly [amount] lamports from the
    funder to the vault (the funder held at least that much), adds
    [amount] to funded_amount, leaves every other field of the project
    unchanged and touches no milestone nor the registry. *)
Theorem fund_project_success (c : FundProjectCtx) (w w' : World) :
  execute (fund_project c) w = (w', Ok tt) ->
  exists p vb,
    projects w !! fp_project c = Some p /\ vaults w !! fp_project c = Some vb /\
    0 < fp_amount c <= default 0 (lamports w !! fp_funder c) /\
    vaults w' !! fp_project c = Some (vb + fp_amount c) /\
    lamports w' !! fp_funder c = Some (default 0 (lamports w !! fp_funder c) - fp_amount c) /\
    projects w' !! fp_project c =
      Some (mkProject (id p) (name p) (description p) (creator p) (governance_authority p)
              (oracle_authority p) (vault p) (vault_bump p) (funded_amount p + fp_amount c)
              (kwh_total p) (co2_total p) (last_metrics_root p) (num_milestones p)) /\
    milestones w' = milestones w /\ registry w' = registry w.
Proof.
  intros H. unfold_m. crush_m. do 2 eexists.
  rewrite !lookup_insert_eq. repeat split; eauto; lia.
Qed.

Definition demo_fund : FundProjectCtx :=
  {| fp_project := 10; fp_funder := 5; fp_funder_signer := true; fp_amount := 30 |}.

Lemma fund_project_success_witness :
  vaults (fst (execute (fund_project demo_fund) demo_world1)) !! fp_project demo_fund
  = Some (rent_minimum_balance VAULT_SPACE + 40).
Proof.
  assert (H : execute (fund_project demo_fund) demo_world1
              = (fst (execute (fund_project demo_fund) demo_world1), Ok tt))
    by (vm_compute; reflexivity).
  destruct (fund_project_success _ _ _ H) as (p & vb & _ & Hv & _ & Hv' & _).
  rewrite Hv'. vm_compute in Hv. injection Hv as <-. reflexivity.
Defined.

(** [fund_project] with a zero amount fails with InvalidAmount once the
    accounts are valid, and nothing is transferred. *)
Theorem fund_project_zero_amount (c : FundProjectCtx) (w : World) (p : Project) (vb : Z) :
  projects w !! fp_project c = Some p -> vaults w !! fp_project c = Some vb ->
  fp_funder_signer c = true -> fp_amount c = 0 ->
  execute (fund_project c) w = (w, Err (Custom InvalidAmount)).
Proof. intros Hp Hv Hs Ha. unfold_m. rewrite Ha in *. crush_m; reflexivity. Qed.

Definition demo_fund_zero : FundProjectCtx :=
  {| fp_project := 10; fp_funder := 5; fp_funder_signer := true; fp_amount := 0 |}.

Lemma fund_project_zero_amount_witness :
  execute (fund_project demo_fund_zero) demo_world1 = (demo_world1, Err (Custom InvalidAmount)).
Proof.
  lookup_demo demo_world1 (fp_project demo_fund_zero) p Hp.
  destruct (vaults demo_world1 !! fp_project demo_fund_zero) as [vb|] eqn:Hv;
    [| vm_compute in Hv; discriminate Hv].
  exact (fund_project_zero_amount demo_fund_zero demo_world1 _ _ Hp Hv eq_refl eq_refl).
Defined.

(** ** Metrics submission *)

(** [submit_metrics] signed by a key other than the project's oracle
    authority fails with Unauthorized and changes nothing. *)
Theorem submit_metrics_wrong_oracle (c : SubmitMetricsCtx) (w : World) (p : Project) :
  projects w !! sm_project c = Some p -> sm_oracle_signer c = true ->
  oracle_authority p <> sm_oracle_authority c ->
  execute (submit_metrics c) w = (w, Err (Custom Unauthorized)).
Proof. intros Hp Hs Ho. unfold_m. crush_m; try congruence; reflexivity. Qed.

Definition demo_fake_oracle : SubmitMetricsCtx :=
  {| sm_project := 10; sm_oracle_authority := 3; sm_oracle_signer := true;
     sm_kwh_delta := 1000; sm_co2_delta := 1000; sm_new_root := None |}.

Lemma submit_metrics_wrong_oracle_witness :
  execute (submit_metrics demo_fake_oracle) demo_world1 = (demo_world1, Err (Custom Unauthorized)).
Proof.
  lookup_demo demo_world1 (sm_project demo_fake_oracle) p Hp.
  apply (submit_metrics_wrong_oracle _ _ _ Hp eq_refl).
  vm_compute. intros Hc. discriminate Hc.
Defined.

(** A successful [submit_metrics] writes the project back with the
    deltas added to the totals, the metrics root replaced by the new one
    when given and kept otherwise, and every other field unchanged. *)
Theorem submit_metrics_post (c : SubmitMetricsCtx) (w w' : World) :
  execute (submit_metrics c) w = (w', Ok tt) ->
  exists p, projects w !! sm_project c = Some p /\
    projects w' !! sm_project c =
      Some (mkProject (id p) (name p) (description p) (creator p) (governance_authority p)
              (oracle_authority p) (vault p) (vault_bump p) (funded_amount p)
              (kwh_total p + sm_kwh_delta c) (co2_total p + sm_co2_delta c)
              (match sm_new_root c with Some r => r | None => last_metrics_root p end)
              (num_milestones p)).
Proof.
  intros H. unfold_m. crush_m; eexists; rewrite !lookup_insert_eq; split; eauto.
Qed.

Definition demo_new_root : SubmitMetricsCtx :=
  {| sm_project := 10; sm_oracle_authority := 6; sm_oracle_signer := true;
     sm_kwh_delta := 1; sm_co2_delta := 1; sm_new_root := Some (repeat 7 32) |}.

Lemma submit_metrics_post_witness :
  option_map last_metrics_root
    (projects (fst (execute (submit_metrics demo_new_root) demo_world1)) !! sm_project demo_new_root)
  = Some (repeat 7 32).
Proof.
  assert (H : execute (submit_metrics demo_new_root) demo_world1
              = (fst (execute (submit_metrics demo_new_root) demo_world1), Ok tt))
    by (vm_compute; reflexivity).
  destruct (submit_metrics_post _ _ _ H) as (p & _ & Hp').
  rewrite Hp'. reflexivity.
Defined.

(** [submit_metrics] moves no lamports and touches no vault, milestone,
    registry or other project. *)
Theorem submit_metrics_frame (c : SubmitMetricsCtx) (w : World) :
  let w' := fst (execute (submit_metrics c) w) in
  vaults w' = vaults w /\ lamports w' = lamports w /\ milestones w' = milestones w /\
  registry w' = registry w /\
  (forall k, k <> sm_project c -> projects w' !! k = projects w !! k).
Proof.
  cbv zeta. unfold_m. crush_m; repeat split; auto;
    intros k Hk; rewrite ?lookup_insert_ne; auto.
Qed.

(** ** Release *)

(** [release_milestone] never writes a project account nor the registry,
    whatever its outcome. *)
Theorem release_milestone_frame (c : ReleaseMilestoneCtx) (w : World) :
  let w' := fst (execute (release_milestone c) w) in
  projects w' = projects w /\ registry w' = registry w.
Proof. cbv zeta. unfold_m. crush_m; split; reflexivity. Qed.






Definition demo_big_milestone : CreateMilestoneCtx :=
  {| cm_project := 10; cm_creator := 3; cm_creator_signer := true;
     cm_governance_authority := 0; cm_index := 1; cm_amount_lamports := 2000000;
     cm_kwh_target := 0; cm_co2_target := 0; cm_payee := demo_payee;
     cm_milestone := 101 |}.




(** ** Governance authority rotation *)

(** A successful [set_project_authority] replaces the project's
    governance authority and nothing else: the other fields, the other
    projects, vaults, milestones, lamports and registry are unchanged;
    the caller was the current authority and signed. *)
Theorem set_project_authority_success (c : SetProjectAuthorityCtx) (w w' : World) :
  execute (set_project_authority c) w = (w', Ok tt) ->
  exists p, projects w !! sa_project c = Some p /\
    sa_current_signer c = true /\ governance_authority p = sa_current_governance_authority c /\
    projects w' !! sa_project c =
      Some (mkProject (id p) (name p) (description p) (creator p) (sa_new_governance_authority c)
              (oracle_authority p) (vault p) (vault_bump p) (funded_amount p)
              (kwh_total p) (co2_total p) (last_metrics_root p) (num_milestones p)) /\
    (forall k, k <> sa_project c -> projects w' !! k = projects w !! k) /\
    vaults w' = vaults w /\ milestones w' = milestones w /\ lamports w' = lamports w /\
    registry w' = registry w.
Proof.
  intros H. unfold_m. crush_m. eexists. rewrite lookup_insert_eq.
  repeat split; auto. intros k Hk. rewrite lookup_insert_ne; auto.
Qed.

Definition demo_rotate : SetProjectAuthorityCtx :=
  {| sa_project := 10; sa_current_governance_authority := 4; sa_current_signer := true;
     sa_new_governance_authority := 8 |}.

Lemma set_project_authority_success_witness :
  option_map governance_authority
    (projects (fst (execute (set_project_authority demo_rotate) demo_world1)) !! sa_project demo_rotate)
  = Some 8.
Proof.
  assert (H : execute (set_project_authority demo_rotate) demo_world1
              = (fst (execute (set_project_authority demo_rotate) demo_world1), Ok tt))
    by (vm_compute; reflexivity).
  destruct (set_project_authority_success _ _ _ H) as (p & _ & _ & _ & Hp' & _).
  rewrite Hp'. reflexivity.
Defined.

(** [set_project_authority] on an existing project fails and changes
    nothing when the caller does not sign (AccountNotSigner) or signs
    with a key other than the current governance authority
    (Unauthorized). *)
Theorem set_project_authority_rejects (c : SetProjectAuthorityCtx) (w : World) (p : Project) :
  projects w !! sa_project c = Some p ->
  (sa_current_signer c = false -> execute (set_project_authority c) w = (w, Err AccountNotSigner)) /\
  (sa_current_signer c = true -> governance_authority p <> sa_current_governance_authority c ->
   execute (set_project_authority c) w = (w, Err (Custom Unauthorized))).
Proof.
  intros Hp. split.
  - intros Hs. unfold_m. crush_m. reflexivity.
  - intros Hs Hg. unfold_m. crush_m; try congruence; reflexivity.
Qed.

Definition demo_rotate_intruder : SetProjectAuthorityCtx :=
  {| sa_project := 10; sa_current_governance_authority := 3; sa_current_signer := true;
     sa_new_governance_authority := 3 |}.

Lemma set_project_authority_rejects_witness :
  execute (set_project_authority demo_rotate_intruder) demo_world1
  = (demo_world1, Err (Custom Unauthorized)).
Proof.
  lookup_demo demo_world1 (sa_project demo_rotate_intruder) p Hp.
  apply (proj2 (set_project_authority_rejects _ _ _ Hp) eq_refl).
  vm_compute. intros Hc. discriminate Hc.
Defined.

Lemma execute_cases (m : M unit) (w : World) :
  (exists w', execute m w = (w', Ok tt)) \/ (exists e, execute m w = (w, Err e)).
Proof.
  unfold execute. destruct (m w) as [[[] w']|e]; [left | right]; eauto.
Qed.

Lemma release_requires_governance (c : ReleaseMilestoneCtx) (w w' : World) :
  execute (release_milestone c) w = (w', Ok tt) ->
  exists p, projects w !! rm_project c = Some p /\
    governance_authority p = rm_governance_authority c.
Proof. intros H. unfold_m. crush_m. eauto. Qed.

(** After the governance authority is rotated to a different key, every
    [release_milestone] on that project that names the old authority
    fails and changes nothing. *)
Theorem rotation_locks_out_old_authority (c : SetProjectAuthorityCtx) (rc : ReleaseMilestoneCtx) (w w' : World) :
  execute (set_project_authority c) w = (w', Ok tt) ->
  sa_new_governance_authority c <> sa_current_governance_authority c ->
  rm_project rc = sa_project c ->
  rm_governance_authority rc = sa_current_governance_authority c ->
  exists e, execute (release_milestone rc) w' = (w', Err e).
Proof.
  intros H Hne Hp Hg.
  destruct (set_project_authority_success c w w' H) as (p & _ & _ & _ & Hp' & _).
  destruct (execute_cases (release_milestone rc) w') as [[w'' Hr] | He]; [|exact He].
  destruct (release_requires_governance rc w' w'' Hr) as (q & Hq & Hqg).
  rewrite Hp, Hp' in Hq. injection Hq as <-. cbn in Hqg. congruence.
Qed.

Definition demo_release_old : ReleaseMilestoneCtx :=
  {| rm_project := 10; rm_milestone := (10, 0); rm_payee := demo_payee;
     rm_governance_authority := 4; rm_governance_signer := true |}.

Lemma rotation_locks_out_old_authority_witness :
  exists e, execute (release_milestone demo_release_old)
              (fst (execute (set_project_authority demo_rotate) demo_world2))
            = (fst (execute (set_project_authority demo_rotate) demo_world2), Err e).
Proof.
  assert (H : execute (set_project_authority demo_rotate) demo_world2
              = (fst (execute (set_project_authority demo_rotate) demo_world2), Ok tt))
    by (vm_compute; reflexivity).
  apply (rotation_locks_out_old_authority _ _ _ _ H).
  - vm_compute. intros Hc. discriminate Hc.
  - reflexivity.
  - reflexivity.
Defined.

(** ** Invariants over instruction sequences *)

Lemma step_vault_mono (w : World) (i : Instr) (k : Pubkey) (b : Z) :
  is_release_instr i = false ->
  vaults w !! k = Some b ->
  exists b', vaults (step w i) !! k = Some b' /\ b <= b'.
Proof.
  intros Hi Hb. destruct i; cbn in Hi; try discriminate Hi;
    unfold_m; crush_m; try (eexists; split; [eassumption | lia]);
    rewrite ?lookup_insert_cases; repeat case_decide; subst; crush_m;
    try (eexists; split; [reflexivity | lia]);
    try (eexists; split; [eassumption | lia]).
Qed.

(** Only [release_milestone] takes lamports out of a vault: every other
    instruction leaves an existing vault balance unchanged or increases
    it. *)
Theorem vault_never_decreases_without_release (is : list Instr) (w : World) (k : Pubkey) (b : Z) :
  forallb (fun i => negb (is_release_instr i)) is = true ->
  vaults w !! k = Some b ->
  exists b', vaults (run w is) !! k = Some b' /\ b <= b'.
Proof.
  revert w b. induction is as [|i is IH]; intros w b Hall Hb; cbn in *.
  - exists b. split; [exact Hb | lia].
  - apply andb_true_iff in Hall as [Hi Hrest]. apply negb_true_iff in Hi.
    destruct (step_vault_mono w i k b Hi Hb) as (b1 & H1 & L1).
    destruct (IH _ _ Hrest H1) as (b2 & H2 & L2).
    exists b2. split; [exact H2 | lia].
Qed.

Definition demo_no_release : list Instr :=
  [ IFundProject demo_fund; ISetProjectAuthority demo_rotate; ICreateMilestone demo_big_milestone ].

Lemma vault_never_decreases_without_release_witness :
  exists b', vaults (run demo_world1 demo_no_release) !! 10 = Some b' /\
    rent_minimum_balance VAULT_SPACE + 10 <= b'.
Proof.
  apply (vault_never_decreases_without_release demo_no_release demo_world1 10
           (rent_minimum_balance VAULT_SPACE + 10));
    vm_compute; reflexivity.
Defined.

Lemma step_funded_stable (w : World) (i : Instr) (k : Pubkey) (p : Project) :
  is_fund_instr i = false ->
  projects w !! k = Some p ->
  exists p', projects (step w i) !! k = Some p' /\ funded_amount p' = funded_amount p.
Proof.
  intros Hi Hp. destruct i; cbn in Hi; try discriminate Hi;
    unfold_m; crush_m; try (eexists; split; [eassumption | reflexivity]);
    rewrite ?lookup_insert_cases; repeat case_decide; subst; crush_m;
    try (eexists; split; [reflexivity | reflexivity]);
    try (eexists; split; [eassumption | reflexivity]).
Qed.

(** Only [fund_project] changes a project's funded_amount. *)
Theorem funded_amount_only_by_funding (is : list Instr) (w : World) (k : Pubkey) (p : Project) :
  forallb (fun i => negb (is_fund_instr i)) is = true ->
  projects w !! k = Some p ->
  exists p', projects (run w is) !! k = Some p' /\ funded_amount p' = funded_amount p.
Proof.
  revert w p. induction is as [|i is IH]; intros w p Hall Hp; cbn in *.
  - exists p. split; [exact Hp | reflexivity].
  - apply andb_true_iff in Hall as [Hi Hrest]. apply negb_true_iff in Hi.
    destruct (step_funded_stable w i k p Hi Hp) as (p1 & H1 & E1).
    destruct (IH _ _ Hrest H1) as (p2 & H2 & E2).
    exists p2. split; [exact H2 | congruence].
Qed.

Definition demo_no_fund : list Instr :=
  [ ISubmitMetrics demo_new_root; IReleaseMilestone demo_release_old; ISetProjectAuthority demo_rotate ].

Lemma funded_amount_only_by_funding_witness :
  exists p', projects (run demo_world1 demo_no_fund) !! 10 = Some p' /\ funded_amount p' = 10.
Proof.
  lookup_demo demo_world1 10 p Hp.
  exact (funded_amount_only_by_funding demo_no_fund demo_world1 10 _ eq_refl Hp).
Defined.

Lemma step_project_identity (w : World) (i : Instr) (k : Pubkey) (p : Project) :
  projects w !! k = Some p ->
  exists p', projects (step w i) !! k = Some p' /\
    id p' = id p /\ name p' = name p /\ description p' = description p /\
    creator p' = creator p /\ oracle_authority p' = oracle_authority p /\
    vault p' = vault p /\ vault_bump p' = vault_bump p.
Proof.
  intros Hp. destruct i; unfold_m; crush_m;
    try (eexists; split; [eassumption | tauto]);
    rewrite ?lookup_insert_cases; repeat case_decide; subst; crush_m;
    try (eexists; split; [reflexivity | cbn; tauto]);
    try (eexists; split; [eassumption | tauto]).
Qed.

(** A project's identity (id, name, description, creator, oracle
    authority, vault address and bump) never changes once created. *)
Theorem project_identity_stable (is : list Instr) (w : World) (k : Pubkey) (p : Project) :
  projects w !! k = Some p ->
  exists p', projects (run w is) !! k = Some p' /\
    id p' = id p /\ name p' = name p /\ description p' = description p /\
    creator p' = creator p /\ oracle_authority p' = oracle_authority p /\
    vault p' = vault p /\ vault_bump p' = vault_bump p.
Proof.
  revert w p. induction is as [|i is IH]; intros w p Hp; cbn.
  - exists p. split; [exact Hp | tauto].
  - destruct (step_project_identity w i k p Hp) as (p1 & H1 & E1 & E2 & E3 & E4 & E5 & E6 & E7).
    destruct (IH _ _ H1) as (p2 & H2 & F1 & F2 & F3 & F4 & F5 & F6 & F7).
    exists p2. split; [exact H2|]. repeat split; congruence.
Qed.

Lemma project_identity_stable_witness :
  exists p', projects (run demo_world1 demo_after) !! 10 = Some p' /\ creator p' = 3.
Proof.
  lookup_demo demo_world1 10 p Hp.
  destruct (project_identity_stable demo_after demo_world1 10 _ Hp)
    as (p' & H & _ & _ & _ & E & _).
  exists p'. split; [exact H | exact E].
Defined.

(** ** Upgrade bookkeeping *)

Module UpgradeExtra.
Import Upgrade.




Lemma count_completes_nonneg (ops : list VersionCall) : 0 <= count_completes ops.
Proof. induction ops as [|[] ops IH]; cbn; lia. Qed.

(** Along any sequence of version calls that does not panic, the
    upgrade count grows by exactly the number of [complete_upgrade]
    calls; without such a call the version number and the timestamp of
    the last upgrade are unchanged. *)
Theorem run_version_count (ops : list VersionCall) (v v' : ContractVersion) :
  run_version v ops = Some v' ->
  upgrade_count v' = upgrade_count v + count_completes ops /\
  (count_completes ops = 0 -> version v' = version v /\ last_upgrade v' = last_upgrade v).
Proof.
  revert v. induction ops as [|op ops IH]; intros v H; cbn in H |- *.
  - injection H as <-. split; [lia | auto].
  - destruct (call_version v op) as [v1|] eqn:E; [|discriminate].
    destruct (IH v1 H) as [H1 H2].
    pose proof (count_completes_nonneg ops).
    destruct op; cbn in E.
    + injection E as <-. cbn in *. split; [lia | exact H2].
    + unfold complete_upgrade, checked_add_u64 in E.
      destruct (upgrade_count v + 1 <=? U64_MAX); [|discriminate]. injection E as <-. cbn in *.
      split; [lia | intros Hz; lia].
    + injection E as <-. cbn in *. split; [lia | exact H2].
Qed.

Definition demo_calls : list VersionCall :=
  [CallStart; CallComplete 50 2; CallStart; CallCancel; CallStart; CallComplete 60 1].

Lemma run_version_count_witness :
  option_map upgrade_count (run_version default_version demo_calls) = Some 2.
Proof.
  destruct (run_version default_version demo_calls) as [v'|] eqn:E; [| vm_compute in E; discriminate E].
  destruct (run_version_count demo_calls default_version v' E) as [H _].
  cbn. rewrite H. reflexivity.
Defined.

(** Once a migration has all its approvals, further [add_approval]
    calls that do not panic keep it so. *)
Theorem approvals_stay_sufficient (n : nat) (m m' : MigrationState) :
  has_all_approvals m = true -> add_approvals n m = Some m' ->
  has_all_approvals m' = true.
Proof.
  unfold has_all_approvals. intros Hh Ha. apply Z.leb_le in Hh. apply Z.leb_le.
  destruct (UpgradeProofs.add_approvals_count n m m' Ha) as [H1 H2]. lia.
Qed.

Lemma approvals_stay_sufficient_witness :
  option_map has_all_approvals
    (add_approvals 2%nat (mkMigrationState 0 0 0 None (repeat 0 32) false false 3 2 0))
  = Some true.
Proof.
  destruct (add_approvals 2%nat (mkMigrationState 0 0 0 None (repeat 0 32) false false 3 2 0))
    as [m'|] eqn:E; [| vm_compute in E; discriminate E].
  cbn. f_equal. apply (approvals_stay_sufficient _ _ _ (eq_refl true : has_all_approvals (mkMigrationState 0 0 0 None (repeat 0 32) false false 3 2 0) = true) E).
Defined.

End UpgradeExtra.

(** ** Escrow helpers *)

Module EscrowExtra.
Import Escrow.

(** With u8 counts and at most as many completed milestones as
    milestones, [completion_percentage] reports 100 exactly when
    [all_milestones_completed] holds; an escrow with no milestones counts
    as all completed yet reports 0. *)
Theorem completion_full_iff_all (e : EscrowAccount) :
  is_u8 (milestone_count e) -> is_u8 (completed_milestones e) ->
  (0 < milestone_count e -> completed_milestones e <= milestone_count e ->
   (completion_percentage e = Some 100 <-> all_milestones_completed e = true)) /\
  (milestone_count e = 0 -> completed_milestones e = 0 ->
   all_milestones_completed e = true /\ completion_percentage e = Some 0).
Proof.
  intros Hm Hc. unfold is_u8, U8_MAX in *.
  unfold completion_percentage, all_milestones_completed, mul_u16, div_u16, as_u8, U16_MAX.
  split.
  - intros Hpos Hle.
    destruct (milestone_count e =? 0) eqn:E0; zbool; [lia|].
    destruct (completed_milestones e * 100 <=? 65535) eqn:E1; zbool; [|lia].
    destruct (milestone_count e =? 0) eqn:E2; zbool; [lia|].
    assert (Hq : completed_milestones e * 100 / milestone_count e <= 100)
      by (apply Z.div_le_upper_bound; lia).
    assert (Hq0 : 0 <= completed_milestones e * 100 / milestone_count e)
      by (apply Z.div_pos; lia).
    rewrite Z.mod_small by lia. rewrite Z.eqb_eq. split.
    + intros H. injection H as H.
      destruct (Z.eq_dec (completed_milestones e) (milestone_count e)) as [Heq|Hne]; [exact Heq|].
      exfalso.
      assert (Hlt : completed_milestones e * 100 < 100 * milestone_count e) by lia.
      assert (completed_milestones e * 100 / milestone_count e < 100)
        by (apply Z.div_lt_upper_bound; lia).
      lia.
    + intros H. rewrite H, Z.mul_comm, Z.div_mul by lia. reflexivity.
  - intros H0 Hc0. rewrite H0, Hc0. split; reflexivity.
Qed.

Lemma completion_full_iff_all_witness :
  completion_percentage (mkEscrowAccount "p" 0 0 0 4 4 Active 0 0 0) = Some 100 /\
  all_milestones_completed (mkEscrowAccount "p" 0 0 0 4 4 Active 0 0 0) = true.
Proof.
  assert (H := proj1 (completion_full_iff_all (mkEscrowAccount "p" 0 0 0 4 4 Active 0 0 0)
                        ltac:(unfold is_u8, U8_MAX; cbn; lia) ltac:(unfold is_u8, U8_MAX; cbn; lia))
                 ltac:(cbn; lia) ltac:(cbn; lia)).
  split; [apply H; reflexivity | reflexivity].
Defined.



End EscrowExtra.

Module EscrowMilestoneExtra.
Import EscrowMilestone.

(** A completed milestone is never overdue, and a milestone overdue at
    some time stays overdue at every later time. *)
Theorem is_overdue_monotone (m : MilestoneData) (t t' : Z) :
  (status m = Completed -> is_overdue m t = false) /\
  (is_overdue m t = true -> t <= t' -> is_overdue m t' = true).
Proof.
  unfold is_overdue. split.
  - intros Hs. rewrite Hs. reflexivity.
  - intros H Hle. destruct (status m); cbn in *; try discriminate H;
      apply Z.gtb_lt in H; apply Z.gtb_lt; lia.
Qed.

Lemma is_overdue_monotone_witness :
  is_overdue (mkMilestoneData 0 0 0 0 100 InProgress (repeat 0 32) None 0) 500 = true.
Proof.
  apply (proj2 (is_overdue_monotone (mkMilestoneData 0 0 0 0 100 InProgress (repeat 0 32) None 0) 101 500));
    [reflexivity | lia].
Defined.

End EscrowMilestoneExtra.

Module ParticipantsExtra.
Import Participants.


End ParticipantsExtra.
